(** * Win-Bin: the two-step bottle validation workflow

    A shallow embedding of

    - [src/ai/flows/suggest-bottle-type.ts]: the classification flow
      (module [Flow]);
    - [src/app/dashboard/page.tsx]: the scanner handlers of the dashboard page
      and the controls the page renders (module [Dashboard]).

    An [async] handler is split at its single [await] into the part that runs
    on the click and the part that runs when the awaited call settles; the
    React state setters are absolute writes, threaded through a small state
    monad.  [console.error], the toast and the markup around the scanner are
    left out: they write none of the state the handlers read. *)

From Stdlib Require Import String List Bool ZArith Lia.
Import ListNotations.
Local Open Scope string_scope.
Local Open Scope list_scope.

(* ================================================================= *)
(** ** src/ai/flows/suggest-bottle-type.ts *)

Module Flow.

(** JSON values, as the model's reply is decoded before it is validated.
    An object is its list of properties; [get] reads a property. *)
#[local] Unset Elimination Schemes.
Inductive Json : Type :=
| JNull
| JBool (b : bool)
| JNumber (n : Z)
| JString (s : string)
| JArray (items : list Json)
| JObject (fields : list (string * Json)).
#[local] Set Elimination Schemes.

Fixpoint get (key : string) (fields : list (string * Json)) : option Json :=
  match fields with
  | [] => None
  | (k, v) :: rest => if String.eqb k key then Some v else get key rest
  end.

(** The zod combinators the two schemas are built from.  A schema parses a
    value into its typed form, or rejects it. *)
Definition Schema (A : Type) : Type := Json -> option A.

Definition z_string : Schema string :=
  fun j => match j with JString s => Some s | _ => None end.

Definition z_boolean : Schema bool :=
  fun j => match j with JBool b => Some b | _ => None end.

Fixpoint parse_items {A : Type} (item : Schema A) (xs : list Json) : option (list A) :=
  match xs with
  | [] => Some []
  | x :: rest =>
      match item x, parse_items item rest with
      | Some a, Some l => Some (a :: l)
      | _, _ => None
      end
  end.

Definition z_array {A : Type} (item : Schema A) : Schema (list A) :=
  fun j => match j with JArray xs => parse_items item xs | _ => None end.

(** A required property of a [z.object]. *)
Definition required {A : Type} (sch : Schema A) (v : option Json) : option A :=
  match v with Some j => sch j | None => None end.

(** A property declared [.optional()]: it may be missing. *)
Definition optional {A : Type} (sch : Schema A) (v : option Json) : option (option A) :=
  match v with
  | None => Some None
  | Some j => match sch j with Some a => Some (Some a) | None => None end
  end.

(** [z.enum(['identify', 'confirm'])] *)
Inductive Step : Type := identify | confirm.

Record SuggestBottleTypeInput : Type := {
  photoDataUri : string;
  validationStep : Step
}.

Record Suggestion : Type := { type : string }.

Record SuggestBottleTypeOutput : Type := {
  suggestions : option (list Suggestion);
  isPlasticBottle : bool;
  isDeposited : bool
}.

Definition SuggestionSchema : Schema Suggestion :=
  fun j =>
    match j with
    | JObject fields =>
        match required z_string (get "type" fields) with
        | Some t => Some {| type := t |}
        | None => None
        end
    | _ => None
    end.

Definition SuggestBottleTypeOutputSchema : Schema SuggestBottleTypeOutput :=
  fun j =>
    match j with
    | JObject fields =>
        match optional (z_array SuggestionSchema) (get "suggestions" fields),
              required z_boolean (get "isPlasticBottle" fields),
              required z_boolean (get "isDeposited" fields) with
        | Some s, Some p, Some d =>
            Some {| suggestions := s; isPlasticBottle := p; isDeposited := d |}
        | _, _, _ => None
        end
    | _ => None
    end.

(** The two prompts; their templates are text for the model and carry no
    logic.  Both take [{ photoDataUri }] and declare
    [SuggestBottleTypeOutputSchema] as their output schema. *)
Inductive PromptName : Type := identifyBottlePrompt | confirmDepositPrompt.

Record Request : Type := {
  prompt : PromptName;
  media : string
}.

(** What the external classification service does with one request. *)
Inductive ServiceReply : Type :=
| Unreachable
| TimedOut
| Replied (raw : Json).

(** The service answers the [n]-th request (counted from 0) it receives. *)
Definition Service : Type := nat -> Request -> ServiceReply.

Inductive ServiceError : Type :=
| ServiceUnreachable
| ServiceTimeout
| MalformedOutput.

(** Gateway computations: they read the service, append to the log of
    requests sent, and either throw or return. *)
Definition Gateway (A : Type) : Type :=
  Service -> list Request -> list Request * (ServiceError + A).

Definition ret {A : Type} (a : A) : Gateway A :=
  fun _ log => (log, inr a).

Definition throw {A : Type} (e : ServiceError) : Gateway A :=
  fun _ log => (log, inl e).

Definition bind {A B : Type} (m : Gateway A) (k : A -> Gateway B) : Gateway B :=
  fun svc log =>
    match m svc log with
    | (log', inr a) => k a svc log'
    | (log', inl e) => (log', inl e)
    end.

Notation "x <- m ;; k" := (bind m (fun x => k))
  (at level 61, m at next level, right associativity).

(** The response of a prompt call: [output] is [null] when the reply does
    not fit the prompt's output schema. *)
Record GenerateResponse : Type := { output : option SuggestBottleTypeOutput }.

(** Modelled from the spec: the prompt runner [ai.definePrompt] of
    [@/ai/genkit], which is not among the sources.  A call of a prompt sends
    one request to the external classification service; it throws when the
    service is unreachable or times out, and otherwise validates the reply
    against the output schema ("must validate against this shape; any
    deviation is a parse failure"). *)
Definition callPrompt (name : PromptName) (photo : string) : Gateway GenerateResponse :=
  fun svc log =>
    let req := {| prompt := name; media := photo |} in
    (log ++ [req],
     match svc (length log) req with
     | Unreachable => inl ServiceUnreachable
     | TimedOut => inl ServiceTimeout
     | Replied raw => inr {| output := SuggestBottleTypeOutputSchema raw |}
     end).

(** The body given to [ai.defineFlow].  [output!] is a compile-time
    assertion only: a [null] output is returned as it is. *)
Definition suggestBottleTypeFlow_body (input : SuggestBottleTypeInput)
  : Gateway (option SuggestBottleTypeOutput) :=
  match validationStep input with
  | identify =>
      r <- callPrompt identifyBottlePrompt (photoDataUri input) ;;
      ret (output r)
  | confirm =>
      r <- callPrompt confirmDepositPrompt (photoDataUri input) ;;
      ret (output r)
  end.

(** Modelled from the spec: [ai.defineFlow] of [@/ai/genkit], which is not
    among the sources.  The flow declares [outputSchema:
    SuggestBottleTypeOutputSchema]; what the body returns is validated
    against it, and [null] is not an object of that shape. *)
Definition defineFlow
    (body : SuggestBottleTypeInput -> Gateway (option SuggestBottleTypeOutput))
  : SuggestBottleTypeInput -> Gateway SuggestBottleTypeOutput :=
  fun input =>
    o <- body input ;;
    match o with
    | Some out => ret out
    | None => throw MalformedOutput
    end.

Definition suggestBottleTypeFlow : SuggestBottleTypeInput -> Gateway SuggestBottleTypeOutput :=
  defineFlow suggestBottleTypeFlow_body.

Definition suggestBottleType (input : SuggestBottleTypeInput) : Gateway SuggestBottleTypeOutput :=
  suggestBottleTypeFlow input.

(** The request a call of the flow sends. *)
Definition request_of (input : SuggestBottleTypeInput) : Request :=
  {| prompt := match validationStep input with
               | identify => identifyBottlePrompt
               | confirm => confirmDepositPrompt
               end;
     media := photoDataUri input |}.

(** *** Sample replies and services *)

(** A reply the identify prompt was told never to give: a bottle, with a
    suggestion, already deposited. *)
Definition reply_bottle_in_bin : Json :=
  JObject [ ("suggestions", JArray [ JObject [ ("type", JString "Coca-Cola") ] ]);
            ("isPlasticBottle", JBool true);
            ("isDeposited", JBool true) ].

Definition output_bottle_in_bin : SuggestBottleTypeOutput :=
  {| suggestions := Some [ {| type := "Coca-Cola" |} ];
     isPlasticBottle := true;
     isDeposited := true |}.

Definition always (r : ServiceReply) : Service := fun _ _ => r.

(** A service whose first answer is lost and whose later answers are fine. *)
Definition flaky : Service :=
  fun n _ => match n with O => TimedOut | S _ => Replied reply_bottle_in_bin end.

Definition input_of (step : Step) : SuggestBottleTypeInput :=
  {| photoDataUri := "data:image/jpeg;base64,AAAA"; validationStep := step |}.

(** *** The input schema, and values of the inferred types as JSON *)

(** [z.enum(['identify', 'confirm'])] as a schema. *)
Definition z_enum_Step : Schema Step :=
  fun j =>
    match j with
    | JString s =>
        if String.eqb s "identify" then Some identify
        else if String.eqb s "confirm" then Some confirm
        else None
    | _ => None
    end.

Definition SuggestBottleTypeInputSchema : Schema SuggestBottleTypeInput :=
  fun j =>
    match j with
    | JObject fields =>
        match required z_string (get "photoDataUri" fields),
              required z_enum_Step (get "validationStep" fields) with
        | Some p, Some v => Some {| photoDataUri := p; validationStep := v |}
        | _, _ => None
        end
    | _ => None
    end.

(** A value of [SuggestBottleTypeOutput] (the type inferred from the
    schema) written as JSON, as it travels from the server action to the
    page: an [undefined] property is left out. *)
Definition suggestionToJson (s : Suggestion) : Json :=
  JObject [ ("type", JString (type s)) ].

Definition outputToJson (out : SuggestBottleTypeOutput) : Json :=
  JObject (match suggestions out with
           | Some l => [ ("suggestions", JArray (map suggestionToJson l)) ]
           | None => []
           end
           ++ [ ("isPlasticBottle", JBool (isPlasticBottle out));
                ("isDeposited", JBool (isDeposited out)) ]).

Definition stepToJson (v : Step) : Json :=
  match v with
  | identify => JString "identify"
  | confirm => JString "confirm"
  end.

(** A value of [SuggestBottleTypeInput] written as JSON, as the page's call
    travels to the server action. *)
Definition inputToJson (input : SuggestBottleTypeInput) : Json :=
  JObject [ ("photoDataUri", JString (photoDataUri input));
            ("validationStep", stepToJson (validationStep input)) ].

(** A reply with two suggestions and a property the schema does not know. *)
Definition reply_two_suggestions : Json :=
  JObject [ ("confidence", JNumber 97);
            ("suggestions", JArray [ JObject [ ("type", JString "Coca-Cola") ];
                                     JObject [ ("type", JString "Pepsi");
                                               ("size", JString "500ml") ] ]);
            ("isPlasticBottle", JBool true);
            ("isDeposited", JBool false) ].

Definition output_two_suggestions : SuggestBottleTypeOutput :=
  {| suggestions := Some [ {| type := "Coca-Cola" |}; {| type := "Pepsi" |} ];
     isPlasticBottle := true;
     isDeposited := false |}.

End Flow.

(* ================================================================= *)
(** ** src/app/dashboard/page.tsx *)

Module Dashboard.

Import Flow(SuggestBottleTypeInput, SuggestBottleTypeOutput, ServiceError,
            suggestions, isPlasticBottle, isDeposited).

Inductive ValidationStep : Type := identify | confirm | done.

Record DetectedBottle : Type := { type : string }.

(** The [useState] cells of [DashboardPage]. *)
Record Session : Type := {
  validationStep : ValidationStep;
  isDetecting : bool;
  detectedBottle : option DetectedBottle;
  error : option string;
  hasCameraPermission : option bool
}.

(** One call [addBottle(type, size)] received by the user context. *)
Record AddBottleCall : Type := { bottleType : string; bottleSize : Z }.

(** What a handler can write: the page's state cells and, through
    [addBottle], the ledger kept by the user context. *)
Record World : Type := {
  session : Session;
  ledger : list AddBottleCall
}.

Definition initialSession : Session :=
  {| validationStep := identify;
     isDetecting := false;
     detectedBottle := None;
     error := None;
     hasCameraPermission := None |}.

Definition initialWorld : World := {| session := initialSession; ledger := [] |}.

(** *** Handler monad and the setters *)

Definition Handler (A : Type) : Type := World -> A * World.

Definition ret {A : Type} (a : A) : Handler A := fun w => (a, w).

Definition bind {A B : Type} (m : Handler A) (k : A -> Handler B) : Handler B :=
  fun w => let (a, w') := m w in k a w'.

Notation "x <- m ;; k" := (bind m (fun x => k))
  (at level 61, m at next level, right associativity).
Notation "m ;; k" := (bind m (fun _ => k))
  (at level 61, right associativity).

Definition exec {A : Type} (m : Handler A) (w : World) : World := snd (m w).

Definition modify (f : Session -> Session) : Handler unit :=
  fun w => (tt, {| session := f (session w); ledger := ledger w |}).

Definition setValidationStep (v : ValidationStep) : Handler unit :=
  modify (fun s => {| validationStep := v;
                      isDetecting := isDetecting s;
                      detectedBottle := detectedBottle s;
                      error := error s;
                      hasCameraPermission := hasCameraPermission s |}).

Definition setIsDetecting (b : bool) : Handler unit :=
  modify (fun s => {| validationStep := validationStep s;
                      isDetecting := b;
                      detectedBottle := detectedBottle s;
                      error := error s;
                      hasCameraPermission := hasCameraPermission s |}).

Definition setDetectedBottle (d : option DetectedBottle) : Handler unit :=
  modify (fun s => {| validationStep := validationStep s;
                      isDetecting := isDetecting s;
                      detectedBottle := d;
                      error := error s;
                      hasCameraPermission := hasCameraPermission s |}).

Definition setError (e : option string) : Handler unit :=
  modify (fun s => {| validationStep := validationStep s;
                      isDetecting := isDetecting s;
                      detectedBottle := detectedBottle s;
                      error := e;
                      hasCameraPermission := hasCameraPermission s |}).

Definition setHasCameraPermission (p : option bool) : Handler unit :=
  modify (fun s => {| validationStep := validationStep s;
                      isDetecting := isDetecting s;
                      detectedBottle := detectedBottle s;
                      error := error s;
                      hasCameraPermission := p |}).

Definition addBottle (t : string) (size : Z) : Handler unit :=
  fun w => (tt, {| session := session w;
                   ledger := ledger w ++ [{| bottleType := t; bottleSize := size |}] |}).

(** *** captureFrame *)

(** What [captureFrame] finds when it runs: the two refs, the 2d context and
    the JPEG data URL of the frame drawn. *)
Record Camera : Type := {
  videoRef_current : bool;
  canvasRef_current : bool;
  context2d : bool;
  dataURL : string
}.

Inductive Exn : Type :=
| CameraOrCanvasNotReady
| NoCanvasContext
| GatewayFailure (e : ServiceError).

Definition captureFrame (cam : Camera) : Exn + string :=
  if negb (videoRef_current cam) || negb (canvasRef_current cam)
  then inl CameraOrCanvasNotReady
  else if negb (context2d cam)
  then inl NoCanvasContext
  else inr (dataURL cam).

(** *** The awaited call *)

(** How the promise of [suggestBottleType] settles. *)
Inductive Settled : Type :=
| Fulfilled (aiResult : SuggestBottleTypeOutput)
| Rejected (err : ServiceError).

(** A handler suspended at its [await], with the request it sent and what
    its closure holds. *)
Inductive Pending : Type :=
| AwaitIdentify (input : SuggestBottleTypeInput)
| AwaitConfirm (input : SuggestBottleTypeInput) (closure_detectedBottle : DetectedBottle).

Definition msg_not_a_bottle : string :=
  "This doesn't look like a plastic bottle. Please try again.".
Definition msg_analysis_failed : string :=
  "An error occurred during analysis. Please try again.".
Definition msg_not_confirmed : string :=
  "Deposit not confirmed. Please ensure the bottle goes into the bin clearly.".
Definition msg_confirmation_failed : string :=
  "An error occurred during confirmation. Please try again.".

(** *** handleIdentifyBottle *)

Definition handleIdentifyBottle_catch : Handler unit :=
  setError (Some msg_analysis_failed).

Definition handleIdentifyBottle_finally : Handler unit :=
  setIsDetecting false.

(** Up to the [await]. *)
Definition handleIdentifyBottle_start (cam : Camera) : Handler (option Pending) :=
  setIsDetecting true ;;
  setError None ;;
  setDetectedBottle None ;;
  match captureFrame cam with
  | inr dataUri =>
      ret (Some (AwaitIdentify {| Flow.photoDataUri := dataUri;
                                  Flow.validationStep := Flow.identify |}))
  | inl _ =>
      handleIdentifyBottle_catch ;;
      handleIdentifyBottle_finally ;;
      ret None
  end.

(** [aiResult.suggestions && aiResult.suggestions.length > 0] *)
Definition firstSuggestion (aiResult : SuggestBottleTypeOutput) : option Flow.Suggestion :=
  match suggestions aiResult with
  | Some (first :: _) => Some first
  | Some [] => None
  | None => None
  end.

(** From the [await] on. *)
Definition handleIdentifyBottle_resume (r : Settled) : Handler unit :=
  match r with
  | Fulfilled aiResult =>
      match isPlasticBottle aiResult, firstSuggestion aiResult with
      | true, Some first =>
          setDetectedBottle (Some {| type := Flow.type first |}) ;;
          setValidationStep confirm
      | _, _ =>
          setError (Some msg_not_a_bottle)
      end
  | Rejected _ =>
      handleIdentifyBottle_catch
  end ;;
  handleIdentifyBottle_finally.

(** The handler run with no other handler in between. *)
Definition handleIdentifyBottle (cam : Camera) (r : Settled) : Handler unit :=
  p <- handleIdentifyBottle_start cam ;;
  match p with
  | Some _ => handleIdentifyBottle_resume r
  | None => ret tt
  end.

(** *** handleConfirmDeposit *)

Definition handleConfirmDeposit_catch : Handler unit :=
  setError (Some msg_confirmation_failed).

Definition handleConfirmDeposit_finally : Handler unit :=
  setIsDetecting false.

(** Up to the [await].  [detectedBottle] is the value the callback closed
    over, the state of the render the click happened in. *)
Definition handleConfirmDeposit_start (cam : Camera) : Handler (option Pending) :=
  fun w =>
    match detectedBottle (session w) with
    | None => (None, w)
    | Some bottle =>
        (setIsDetecting true ;;
         setError None ;;
         match captureFrame cam with
         | inr dataUri =>
             ret (Some (AwaitConfirm {| Flow.photoDataUri := dataUri;
                                        Flow.validationStep := Flow.confirm |}
                                     bottle))
         | inl _ =>
             handleConfirmDeposit_catch ;;
             handleConfirmDeposit_finally ;;
             ret None
         end) w
    end.

(** From the [await] on; [bottle] is the closure's [detectedBottle]. *)
Definition handleConfirmDeposit_resume (bottle : DetectedBottle) (r : Settled) : Handler unit :=
  match r with
  | Fulfilled aiResult =>
      if isDeposited aiResult
      then addBottle (type bottle) 0 ;;
           setValidationStep done
      else setError (Some msg_not_confirmed)
  | Rejected _ =>
      handleConfirmDeposit_catch
  end ;;
  handleConfirmDeposit_finally.

Definition handleConfirmDeposit (cam : Camera) (r : Settled) : Handler unit :=
  p <- handleConfirmDeposit_start cam ;;
  match p with
  | Some (AwaitConfirm _ bottle) => handleConfirmDeposit_resume bottle r
  | Some (AwaitIdentify _) => ret tt
  | None => ret tt
  end.

(** *** handleResetScanner *)

Definition handleResetScanner : Handler unit :=
  setError None ;;
  setDetectedBottle None ;;
  setValidationStep identify.

(** *** renderScannerContent: the controls the scanner offers *)

Inductive Control : Type :=
| TryAgain
| ScanBottle
| ConfirmDeposit
| Cancel
| ScanAnotherBottle.

Record Button : Type := { control : Control; disabled : bool }.

Definition Control_eqb (a b : Control) : bool :=
  match a, b with
  | TryAgain, TryAgain
  | ScanBottle, ScanBottle
  | ConfirmDeposit, ConfirmDeposit
  | Cancel, Cancel
  | ScanAnotherBottle, ScanAnotherBottle => true
  | _, _ => false
  end.

(** [if (error)]: [null] and the empty string are falsy. *)
Definition truthy (e : option string) : bool :=
  match e with
  | Some m => negb (String.eqb m "")
  | None => false
  end.

(** [hasCameraPermission !== true] *)
Definition not_granted (p : option bool) : bool :=
  match p with
  | Some true => false
  | _ => true
  end.

(** The buttons of each branch; while [isDetecting] only the spinner is
    rendered, and an error replaces the step's controls by "Try Again". *)
Definition renderScannerContent (s : Session) : list Button :=
  if isDetecting s then []
  else if truthy (error s) then
    [ {| control := TryAgain; disabled := false |} ]
  else
    match validationStep s with
    | identify =>
        [ {| control := ScanBottle;
             disabled := isDetecting s || not_granted (hasCameraPermission s) |} ]
    | confirm =>
        [ {| control := ConfirmDeposit; disabled := isDetecting s |};
          {| control := Cancel; disabled := false |} ]
    | done =>
        [ {| control := ScanAnotherBottle; disabled := false |} ]
    end.

Definition clickable (s : Session) (c : Control) : bool :=
  existsb (fun b => Control_eqb (control b) c && negb (disabled b))
          (renderScannerContent s).

(** The [onClick] of each button, up to its [await] if it has one. *)
Definition onClick (c : Control) (cam : Camera) : Handler (option Pending) :=
  match c with
  | ScanBottle => handleIdentifyBottle_start cam
  | ConfirmDeposit => handleConfirmDeposit_start cam
  | TryAgain | Cancel | ScanAnotherBottle => handleResetScanner ;; ret None
  end.

Definition resume (k : Pending) (r : Settled) : Handler unit :=
  match k with
  | AwaitIdentify _ => handleIdentifyBottle_resume r
  | AwaitConfirm _ bottle => handleConfirmDeposit_resume bottle r
  end.

(** *** The page as a transition system *)

(** The page together with the calls of [suggestBottleType] that have not
    settled yet. *)
Record App : Type := {
  world : World;
  outstanding : list Pending
}.

Definition initialApp : App := {| world := initialWorld; outstanding := [] |}.

Inductive Event : Type :=
| CameraPermission (granted : bool)
| Click (c : Control) (cam : Camera)
| Settle (i : nat) (r : Settled).

Definition remove_nth {A : Type} (i : nat) (l : list A) : list A :=
  firstn i l ++ skipn (S i) l.

Definition opt_to_list {A : Type} (o : option A) : list A :=
  match o with Some a => [a] | None => [] end.

(** One event; [None] when the page does not offer it: a click on a button
    that is not rendered or is disabled, or a settlement of no call. *)
Definition step (a : App) (e : Event) : option App :=
  match e with
  | CameraPermission granted =>
      Some {| world := exec (setHasCameraPermission (Some granted)) (world a);
              outstanding := outstanding a |}
  | Click c cam =>
      if clickable (session (world a)) c then
        let (p, w') := onClick c cam (world a) in
        Some {| world := w'; outstanding := outstanding a ++ opt_to_list p |}
      else None
  | Settle i r =>
      match nth_error (outstanding a) i with
      | Some k =>
          Some {| world := exec (resume k r) (world a);
                  outstanding := remove_nth i (outstanding a) |}
      | None => None
      end
  end.

Fixpoint run (a : App) (trace : list Event) : option App :=
  match trace with
  | [] => Some a
  | e :: rest =>
      match step a e with
      | Some a' => run a' rest
      | None => None
      end
  end.

Inductive Reachable : App -> Prop :=
| Reachable_init : Reachable initialApp
| Reachable_step (a a' : App) (e : Event) :
    Reachable a -> step a e = Some a' -> Reachable a'.

(** What holds of every state the page can be in: a call is outstanding
    exactly while [isDetecting], never more than one, and the confirm step
    always has the bottle it is about. *)
Definition Invariant (a : App) : Prop :=
  let s := session (world a) in
  length (outstanding a) = (if isDetecting s then 1 else 0)%nat /\
  (validationStep s = confirm -> detectedBottle s <> None).

(** *** Sample inputs *)

Definition readyCamera : Camera :=
  {| videoRef_current := true;
     canvasRef_current := true;
     context2d := true;
     dataURL := "data:image/jpeg;base64,AAAA" |}.

Definition result_coca_cola : SuggestBottleTypeOutput :=
  {| Flow.suggestions := Some [ {| Flow.type := "Coca-Cola" |};
                                {| Flow.type := "Pepsi" |} ];
     Flow.isPlasticBottle := true;
     Flow.isDeposited := false |}.

Definition result_not_a_bottle : SuggestBottleTypeOutput :=
  {| Flow.suggestions := None;
     Flow.isPlasticBottle := false;
     Flow.isDeposited := false |}.

Definition result_deposited : SuggestBottleTypeOutput :=
  {| Flow.suggestions := Some [ {| Flow.type := "Pepsi" |} ];
     Flow.isPlasticBottle := true;
     Flow.isDeposited := true |}.

Definition result_not_deposited : SuggestBottleTypeOutput :=
  {| Flow.suggestions := None;
     Flow.isPlasticBottle := false;
     Flow.isDeposited := false |}.

(** The page at the confirm step with "Water Bottle" detected. *)
Definition world_water_bottle : World :=
  {| session := {| validationStep := confirm;
                   isDetecting := false;
                   detectedBottle := Some {| type := "Water Bottle" |};
                   error := None;
                   hasCameraPermission := Some true |};
     ledger := [] |}.

(** The page after a completed deposit, with an earlier error left over. *)
Definition world_done : World :=
  {| session := {| validationStep := done;
                   isDetecting := false;
                   detectedBottle := Some {| type := "Water Bottle" |};
                   error := Some msg_not_confirmed;
                   hasCameraPermission := Some true |};
     ledger := [ {| bottleType := "Water Bottle"; bottleSize := 0 |} ] |}.

(** The camera is granted, "Scan Bottle" is clicked. *)
Definition trace_scanning : list Event :=
  [ CameraPermission true; Click ScanBottle readyCamera ].

(** ... and the scan finds a Coca-Cola bottle. *)
Definition trace_identified : list Event :=
  trace_scanning ++ [ Settle 0 (Fulfilled result_coca_cola) ].

(** The page while that scan is being analysed. *)
Definition app_scanning : App :=
  {| world := {| session := {| validationStep := identify;
                               isDetecting := true;
                               detectedBottle := None;
                               error := None;
                               hasCameraPermission := Some true |};
                 ledger := [] |};
     outstanding := [ AwaitIdentify {| Flow.photoDataUri := "data:image/jpeg;base64,AAAA";
                                       Flow.validationStep := Flow.identify |} ] |}.

(** The page once the Coca-Cola bottle is identified. *)
Definition app_identified : App :=
  {| world := {| session := {| validationStep := confirm;
                               isDetecting := false;
                               detectedBottle := Some {| type := "Coca-Cola" |};
                               error := None;
                               hasCameraPermission := Some true |};
                 ledger := [] |};
     outstanding := [] |}.

(** An identify call whose handler is resumed only after
    [handleResetScanner] ran: the handlers called in that order, which no
    sequence of clicks on the page produces. *)
Definition reset_then_stale (r : Settled) : Handler unit :=
  handleIdentifyBottle_start readyCamera ;;
  handleResetScanner ;;
  handleIdentifyBottle_resume r.

(** Unfold a handler into the record it builds. *)
Ltac run_handler :=
  unfold exec, onClick, resume, handleIdentifyBottle, handleConfirmDeposit,
    handleIdentifyBottle_start, handleIdentifyBottle_resume,
    handleIdentifyBottle_catch, handleIdentifyBottle_finally,
    handleConfirmDeposit_start, handleConfirmDeposit_resume,
    handleConfirmDeposit_catch, handleConfirmDeposit_finally,
    handleResetScanner, bind, ret,
    setValidationStep, setIsDetecting, setDetectedBottle, setError,
    setHasCameraPermission, addBottle, modify in *;
  cbn [fst snd session ledger validationStep isDetecting detectedBottle error
       hasCameraPermission] in *.

(** *** A click followed to its end *)

(** [await suggestBottleType(input)]: the promise fulfils with what the flow
    returns and rejects with what it throws. *)
Definition await_suggestBottleType (svc : Flow.Service) (input : SuggestBottleTypeInput)
  : Settled :=
  match snd (Flow.suggestBottleType input svc []) with
  | inr aiResult => Fulfilled aiResult
  | inl err => Rejected err
  end.

Definition input_of_pending (k : Pending) : SuggestBottleTypeInput :=
  match k with
  | AwaitIdentify input => input
  | AwaitConfirm input _ => input
  end.

(** The [onClick] of a button run to its end, the awaited call answered by
    [svc], with no other handler in between. *)
Definition clickAndSettle (svc : Flow.Service) (c : Control) (cam : Camera) : Handler unit :=
  p <- onClick c cam ;;
  match p with
  | Some k => resume k (await_suggestBottleType svc (input_of_pending k))
  | None => ret tt
  end.

(** The four messages [setError] is ever called with. *)
Definition known_messages : list string :=
  [ msg_not_a_bottle; msg_analysis_failed; msg_not_confirmed; msg_confirmation_failed ].

(** What else holds of every state the page can be in: a call in flight
    belongs to the step the page shows and closes over the bottle the page
    shows, with no error displayed; an error is one of the four messages;
    at the done step the last entry of the ledger is the detected bottle;
    every entry of the ledger has size 0. *)
Definition Consistent (a : App) : Prop :=
  let s := session (world a) in
  (forall k, In k (outstanding a) ->
     error s = None /\
     match k with
     | AwaitIdentify input =>
         validationStep s = identify /\
         detectedBottle s = None /\
         Flow.validationStep input = Flow.identify
     | AwaitConfirm input bottle =>
         validationStep s = confirm /\
         detectedBottle s = Some bottle /\
         Flow.validationStep input = Flow.confirm
     end) /\
  (forall m, error s = Some m -> In m known_messages) /\
  (validationStep s = done ->
   exists bottle l,
     detectedBottle s = Some bottle /\
     ledger (world a) = l ++ [ {| bottleType := type bottle; bottleSize := 0 |} ]) /\
  Forall (fun c => bottleSize c = 0%Z) (ledger (world a)).

(** *** More sample inputs *)

Definition brokenCamera : Camera :=
  {| videoRef_current := true;
     canvasRef_current := true;
     context2d := false;
     dataURL := "" |}.

(** ... "Confirm Deposit" is clicked ... *)
Definition trace_confirming : list Event :=
  trace_identified ++ [ Click ConfirmDeposit readyCamera ].

(** ... and the deposit is confirmed, *)
Definition trace_done : list Event :=
  trace_confirming ++ [ Settle 0 (Fulfilled result_deposited) ].

(** ... or it is not. *)
Definition trace_not_confirmed : list Event :=
  trace_confirming ++ [ Settle 0 (Fulfilled result_not_deposited) ].

Definition app_confirming : App :=
  {| world := {| session := {| validationStep := confirm;
                               isDetecting := true;
                               detectedBottle := Some {| type := "Coca-Cola" |};
                               error := None;
                               hasCameraPermission := Some true |};
                 ledger := [] |};
     outstanding := [ AwaitConfirm {| Flow.photoDataUri := "data:image/jpeg;base64,AAAA";
                                      Flow.validationStep := Flow.confirm |}
                                   {| type := "Coca-Cola" |} ] |}.

Definition app_done : App :=
  {| world := {| session := {| validationStep := done;
                               isDetecting := false;
                               detectedBottle := Some {| type := "Coca-Cola" |};
                               error := None;
                               hasCameraPermission := Some true |};
                 ledger := [ {| bottleType := "Coca-Cola"; bottleSize := 0 |} ] |};
     outstanding := [] |}.

Definition app_not_confirmed : App :=
  {| world := {| session := {| validationStep := confirm;
                               isDetecting := false;
                               detectedBottle := Some {| type := "Coca-Cola" |};
                               error := Some msg_not_confirmed;
                               hasCameraPermission := Some true |};
                 ledger := [] |};
     outstanding := [] |}.

(** A service that answers every request with [raw]. *)
Definition replying (raw : Flow.Json) : Flow.Service := fun _ _ => Flow.Replied raw.

(** Goals about a session the handlers have just written. *)
Ltac consistent_now :=
  repeat match goal with
    | |- _ /\ _ => split
    | |- forall _, _ => intro
    | H : In _ [] |- _ => destruct H
    | H : In _ [_] |- _ => destruct H as [<- | []]
    | H : _ = _ \/ False |- _ => destruct H as [<- | []]
    | H : False |- _ => destruct H
    | H : None = Some _ |- _ => discriminate H
    | H : identify = done |- _ => discriminate H
    | H : confirm = done |- _ => discriminate H
    | H : Some _ = Some _ |- _ => injection H as <-
    end;
  try reflexivity; try assumption; try congruence;
  try (unfold known_messages; cbn; tauto).

(** *** Counting what a trace delivers *)

(** A call fulfilled, with any result. *)
Definition fulfils (e : Event) : bool :=
  match e with
  | Settle _ (Fulfilled _) => true
  | _ => false
  end.

(** A call fulfilled with a result that shows a bottle and names it. *)
Definition shows_bottle (e : Event) : bool :=
  match e with
  | Settle _ (Fulfilled aiResult) =>
      isPlasticBottle aiResult
      && match firstSuggestion aiResult with Some _ => true | None => false end
  | _ => false
  end.

(** A call fulfilled with a result that shows a deposit. *)
Definition shows_deposit (e : Event) : bool :=
  match e with
  | Settle _ (Fulfilled aiResult) => isDeposited aiResult
  | _ => false
  end.

Definition count (f : Event -> bool) (trace : list Event) : nat :=
  length (filter f trace).

(** 1 while the page is at the confirm step: a bottle identified and not
    yet deposited. *)
Definition awaiting_deposit (a : App) : nat :=
  match validationStep (session (world a)) with
  | confirm => 1
  | _ => 0
  end.

(** *** Resets and clicks *)




End Dashboard.

(* ================================================================= *)
(** ** Properties of the classification flow *)

Module FlowSpec.

Import Flow.

Lemma body_runs_one_prompt (input : SuggestBottleTypeInput) (svc : Service)
    (log : list Request) :
  suggestBottleTypeFlow_body input svc log =
    (log ++ [request_of input],
     match svc (length log) (request_of input) with
     | Unreachable => inl ServiceUnreachable
     | TimedOut => inl ServiceTimeout
     | Replied raw => inr (SuggestBottleTypeOutputSchema raw)
     end).
Proof.
  unfold suggestBottleTypeFlow_body, request_of.
  destruct (validationStep input); unfold bind, callPrompt, ret;
    match goal with |- context [svc ?n ?r] => destruct (svc n r) end;
    reflexivity.
Qed.

Lemma flow_unfold (input : SuggestBottleTypeInput) (svc : Service)
    (log : list Request) :
  suggestBottleType input svc log =
    (log ++ [request_of input],
     match svc (length log) (request_of input) with
     | Unreachable => inl ServiceUnreachable
     | TimedOut => inl ServiceTimeout
     | Replied raw =>
         match SuggestBottleTypeOutputSchema raw with
         | Some out => inr out
         | None => inl MalformedOutput
         end
     end).
Proof.
  unfold suggestBottleType, suggestBottleTypeFlow, defineFlow, bind.
  rewrite body_runs_one_prompt.
  destruct (svc (length log) (request_of input)) as [ | | raw]; try reflexivity.
  destruct (SuggestBottleTypeOutputSchema raw); reflexivity.
Qed.

Example schema_accepts_bottle_in_bin :
  SuggestBottleTypeOutputSchema reply_bottle_in_bin = Some output_bottle_in_bin.
Proof. reflexivity. Qed.

Example schema_accepts_missing_suggestions :
  SuggestBottleTypeOutputSchema
    (JObject [ ("isPlasticBottle", JBool false); ("isDeposited", JBool false) ])
  = Some {| suggestions := None; isPlasticBottle := false; isDeposited := false |}.
Proof. reflexivity. Qed.

Example schema_rejects_missing_flag :
  SuggestBottleTypeOutputSchema (JObject [ ("isPlasticBottle", JBool true) ]) = None.
Proof. reflexivity. Qed.

Example schema_rejects_untyped_suggestion :
  SuggestBottleTypeOutputSchema
    (JObject [ ("suggestions", JArray [ JString "Pepsi" ]);
               ("isPlasticBottle", JBool true); ("isDeposited", JBool false) ])
  = None.
Proof. reflexivity. Qed.

(** No retry: the first answer decides, whatever a second request would
    have been answered. *)
Example flaky_service_is_not_retried :
  suggestBottleType (input_of identify) flaky [] =
    ([ {| prompt := identifyBottlePrompt; media := "data:image/jpeg;base64,AAAA" |} ],
     inl ServiceTimeout).
Proof. reflexivity. Qed.

(** C8: a call of [suggestBottleType] sends exactly one request to the
    classification service, the prompt of the requested step on the given
    photo, and it fails exactly when that one request finds the service
    unreachable, times out, or is answered by something that does not parse
    against [SuggestBottleTypeOutputSchema]; no second request is made. *)
Theorem classify_one_request_fails_iff_service_fails :
  forall (svc : Service) (input : SuggestBottleTypeInput) (log : list Request),
    let req := request_of input in
    let reply := svc (length log) req in
    let res := suggestBottleType input svc log in
    fst res = log ++ [req] /\
    ((exists e : ServiceError, snd res = inl e) <->
     (reply = Unreachable \/
      reply = TimedOut \/
      exists raw, reply = Replied raw /\ SuggestBottleTypeOutputSchema raw = None)).
Proof.
  intros svc input log req reply res.
  subst res. rewrite flow_unfold. fold req. fold reply. cbn [fst snd].
  split; [reflexivity | ].
  destruct reply as [ | | raw] eqn:Hreply.
  - split; [intros _; now left | intros _; now exists ServiceUnreachable].
  - split; [intros _; right; now left | intros _; now exists ServiceTimeout].
  - destruct (SuggestBottleTypeOutputSchema raw) as [out | ] eqn:Hparse.
    + split.
      * intros [e He]; discriminate He.
      * intros [H | [H | [raw' [H Hnone]]]]; try discriminate H.
        injection H as <-. congruence.
    + split.
      * intros _. right; right. exists raw. now split.
      * intros _. now exists MalformedOutput.
Qed.

(** C9: whenever the service's reply parses, [suggestBottleType] returns the
    parsed output as it is, for either step: nothing is overridden after the
    parse, so a reply that asserts a deposit during identify, or a bottle
    with suggestions during confirm, reaches the caller unchanged. *)
Theorem classify_returns_parsed_output_unchanged :
  forall (svc : Service) (input : SuggestBottleTypeInput) (log : list Request)
         (raw : Json) (out : SuggestBottleTypeOutput),
    svc (length log) (request_of input) = Replied raw ->
    SuggestBottleTypeOutputSchema raw = Some out ->
    snd (suggestBottleType input svc log) = inr out.
Proof.
  intros svc input log raw out Hreply Hparse.
  rewrite flow_unfold, Hreply, Hparse. reflexivity.
Qed.

Lemma classify_returns_parsed_output_unchanged_witness :
  (always (Replied reply_bottle_in_bin) (length (@nil Request))
          (request_of (input_of identify)) = Replied reply_bottle_in_bin /\
   SuggestBottleTypeOutputSchema reply_bottle_in_bin = Some output_bottle_in_bin) /\
  snd (suggestBottleType (input_of identify) (always (Replied reply_bottle_in_bin)) [])
    = inr output_bottle_in_bin /\
  isDeposited output_bottle_in_bin = true.
Proof.
  split; [split; reflexivity | split; [ | reflexivity]].
  apply (classify_returns_parsed_output_unchanged
           (always (Replied reply_bottle_in_bin)) (input_of identify) []
           reply_bottle_in_bin output_bottle_in_bin); reflexivity.
Defined.

(** The same reply during confirm: the bottle flag and the suggestions are
    not emptied. *)
Example confirm_keeps_bottle_fields :
  snd (suggestBottleType (input_of confirm) (always (Replied reply_bottle_in_bin)) [])
    = inr output_bottle_in_bin.
Proof. reflexivity. Qed.

(** *** The schemas *)

Lemma get_skips_other_key (key k : string) (v : Json) (l1 l2 : list (string * Json)) :
  key <> k -> get k (l1 ++ (key, v) :: l2) = get k (l1 ++ l2).
Proof.
  intros Hne. induction l1 as [ | [k1 v1] l1 IH]; cbn.
  - apply String.eqb_neq in Hne. now rewrite Hne.
  - now rewrite IH.
Qed.

Lemma parse_items_Forall2 {A : Type} (item : Schema A) (xs : list Json) :
  forall l, parse_items item xs = Some l ->
            Forall2 (fun x a => item x = Some a) xs l.
Proof.
  induction xs as [ | x xs IH]; cbn; intros l H.
  - injection H as <-. constructor.
  - destruct (item x) as [a | ] eqn:Hx; [ | discriminate H].
    destruct (parse_items item xs) as [l' | ]; [ | discriminate H].
    injection H as <-. constructor; [exact Hx | now apply IH].
Qed.

Lemma SuggestionSchema_inv (j : Json) (s : Suggestion) :
  SuggestionSchema j = Some s ->
  exists fs, j = JObject fs /\ get "type" fs = Some (JString (type s)).
Proof.
  unfold SuggestionSchema, required, z_string.
  destruct j as [ | | | | | fs]; try discriminate.
  destruct (get "type" fs) as [[ | | | t | | ] | ] eqn:Hget; try discriminate.
  intros H. injection H as <-. now exists fs.
Qed.

Lemma parse_items_suggestionToJson (l : list Suggestion) :
  parse_items SuggestionSchema (map suggestionToJson l) = Some l.
Proof.
  induction l as [ | [t] l IH]; cbn; [reflexivity | ].
  cbn in IH. now rewrite IH.
Qed.

(** X1: the output schema strips what it does not know: a property named
    other than [suggestions], [isPlasticBottle] or [isDeposited], wherever
    it stands in the reply, changes neither whether the reply is accepted
    nor what it parses to. *)
Theorem output_schema_ignores_unknown_properties :
  forall (key : string) (v : Json) (l1 l2 : list (string * Json)),
    key <> "suggestions" ->
    key <> "isPlasticBottle" ->
    key <> "isDeposited" ->
    SuggestBottleTypeOutputSchema (JObject (l1 ++ (key, v) :: l2))
    = SuggestBottleTypeOutputSchema (JObject (l1 ++ l2)).
Proof.
  intros key v l1 l2 Hs Hp Hd.
  unfold SuggestBottleTypeOutputSchema.
  now rewrite !get_skips_other_key by assumption.
Qed.

Lemma output_schema_ignores_unknown_properties_witness :
  ("confidence" <> "suggestions" /\
   "confidence" <> "isPlasticBottle" /\
   "confidence" <> "isDeposited") /\
  SuggestBottleTypeOutputSchema
    (JObject ([ ("isPlasticBottle", JBool true) ]
              ++ ("confidence", JNumber 97) :: [ ("isDeposited", JBool false) ]))
  = SuggestBottleTypeOutputSchema
      (JObject ([ ("isPlasticBottle", JBool true) ] ++ [ ("isDeposited", JBool false) ])).
Proof.
  split; [repeat split; discriminate | ].
  apply (output_schema_ignores_unknown_properties
           "confidence" (JNumber 97)
           [ ("isPlasticBottle", JBool true) ] [ ("isDeposited", JBool false) ]);
    discriminate.
Defined.

(** X2: what an accepted reply looks like.  If the output schema accepts a
    reply, the reply is an object whose [isPlasticBottle] and [isDeposited]
    are the booleans of the result; [suggestions] is absent exactly when the
    result has none, and otherwise is an array parsed item by item, in
    order and without loss: each item is an object whose [type] is the
    string of the suggestion at the same place. *)
Theorem output_schema_accepts_only_well_formed :
  forall (raw : Json) (out : SuggestBottleTypeOutput),
    SuggestBottleTypeOutputSchema raw = Some out ->
    exists fields,
      raw = JObject fields /\
      get "isPlasticBottle" fields = Some (JBool (isPlasticBottle out)) /\
      get "isDeposited" fields = Some (JBool (isDeposited out)) /\
      match get "suggestions" fields with
      | None => suggestions out = None
      | Some j =>
          exists items l,
            j = JArray items /\
            suggestions out = Some l /\
            Forall2 (fun item s =>
                       exists fs, item = JObject fs /\
                                  get "type" fs = Some (JString (type s)))
                    items l
      end.
Proof.
  intros raw out H.
  unfold SuggestBottleTypeOutputSchema in H.
  destruct raw as [ | | | | | fields]; try discriminate H.
  exists fields. split; [reflexivity | ].
  unfold required, optional, z_boolean, z_array in H.
  destruct (get "suggestions" fields) as [j | ] eqn:Hsugg.
  - destruct j as [ | | | | items | ]; try discriminate H.
    destruct (parse_items SuggestionSchema items) as [l | ] eqn:Hitems;
      [ | discriminate H].
    destruct (get "isPlasticBottle" fields) as [[ | p | | | | ] | ]; try discriminate H.
    destruct (get "isDeposited" fields) as [[ | d | | | | ] | ]; try discriminate H.
    injection H as <-. cbn. repeat split.
    exists items, l. repeat split.
    apply parse_items_Forall2 in Hitems. clear Hsugg.
    induction Hitems as [ | x a xs l' Hx _ IH]; constructor.
    + now apply SuggestionSchema_inv.
    + exact IH.
  - destruct (get "isPlasticBottle" fields) as [[ | p | | | | ] | ]; try discriminate H.
    destruct (get "isDeposited" fields) as [[ | d | | | | ] | ]; try discriminate H.
    injection H as <-. cbn. repeat split.
Qed.

Lemma output_schema_accepts_only_well_formed_witness :
  SuggestBottleTypeOutputSchema reply_two_suggestions = Some output_two_suggestions /\
  exists fields,
    reply_two_suggestions = JObject fields /\
    get "isPlasticBottle" fields = Some (JBool (isPlasticBottle output_two_suggestions)) /\
    get "isDeposited" fields = Some (JBool (isDeposited output_two_suggestions)) /\
    match get "suggestions" fields with
    | None => suggestions output_two_suggestions = None
    | Some j =>
        exists items l,
          j = JArray items /\
          suggestions output_two_suggestions = Some l /\
          Forall2 (fun item s =>
                     exists fs, item = JObject fs /\
                                get "type" fs = Some (JString (type s)))
                  items l
    end.
Proof.
  split; [reflexivity | ].
  apply (output_schema_accepts_only_well_formed
           reply_two_suggestions output_two_suggestions).
  reflexivity.
Defined.

(** X3: round trip of the output.  Every value of [SuggestBottleTypeOutput],
    written as JSON, is accepted by the output schema and parses back to
    itself: with or without suggestions, with any two flags. *)
Theorem output_schema_round_trip :
  forall (out : SuggestBottleTypeOutput),
    SuggestBottleTypeOutputSchema (outputToJson out) = Some out.
Proof.
  intros [[l | ] p d]; unfold SuggestBottleTypeOutputSchema, outputToJson; cbn.
  - now rewrite parse_items_suggestionToJson.
  - reflexivity.
Qed.

(** X4: round trip of the input, and the enum.  Every value of
    [SuggestBottleTypeInput], written as JSON, is accepted by the input
    schema and parses back to itself; an object whose [validationStep] is
    any string other than ["identify"] and ["confirm"] is rejected. *)
Theorem input_schema_round_trip_and_enum :
  (forall (input : SuggestBottleTypeInput),
      SuggestBottleTypeInputSchema (inputToJson input) = Some input) /\
  (forall (fields : list (string * Json)) (s : string),
      get "validationStep" fields = Some (JString s) ->
      s <> "identify" ->
      s <> "confirm" ->
      SuggestBottleTypeInputSchema (JObject fields) = None).
Proof.
  split.
  - intros [uri [ | ]]; reflexivity.
  - intros fields s Hget Hi Hc.
    unfold SuggestBottleTypeInputSchema. rewrite Hget.
    unfold required at 2. unfold z_enum_Step.
    apply String.eqb_neq in Hi, Hc. rewrite Hi, Hc.
    destruct (required z_string (get "photoDataUri" fields)); reflexivity.
Qed.

Lemma input_schema_round_trip_and_enum_witness :
  (get "validationStep"
       [ ("photoDataUri", JString "data:image/jpeg;base64,AAAA");
         ("validationStep", JString "done") ] = Some (JString "done") /\
   "done" <> "identify" /\ "done" <> "confirm") /\
  SuggestBottleTypeInputSchema
    (JObject [ ("photoDataUri", JString "data:image/jpeg;base64,AAAA");
               ("validationStep", JString "done") ]) = None.
Proof.
  split; [split; [reflexivity | split; discriminate] | ].
  apply (proj2 input_schema_round_trip_and_enum
           [ ("photoDataUri", JString "data:image/jpeg;base64,AAAA");
             ("validationStep", JString "done") ] "done");
    [reflexivity | discriminate | discriminate].
Defined.

End FlowSpec.

(* ================================================================= *)
(** ** Properties of the scanner handlers *)

Module DashboardSpec.

Import Dashboard.
Import Flow(SuggestBottleTypeOutput, suggestions, isPlasticBottle, isDeposited).

Example scenario_A :
  session (exec (handleIdentifyBottle readyCamera (Fulfilled result_coca_cola)) initialWorld)
  = {| validationStep := confirm;
       isDetecting := false;
       detectedBottle := Some {| type := "Coca-Cola" |};
       error := None;
       hasCameraPermission := None |}.
Proof. reflexivity. Qed.

Example scenario_B :
  session (exec (handleIdentifyBottle readyCamera (Fulfilled result_not_a_bottle)) initialWorld)
  = {| validationStep := identify;
       isDetecting := false;
       detectedBottle := None;
       error := Some msg_not_a_bottle;
       hasCameraPermission := None |}.
Proof. reflexivity. Qed.

Example scenario_C :
  exec (handleConfirmDeposit readyCamera (Fulfilled result_deposited)) world_water_bottle
  = {| session := {| validationStep := done;
                     isDetecting := false;
                     detectedBottle := Some {| type := "Water Bottle" |};
                     error := None;
                     hasCameraPermission := Some true |};
       ledger := [ {| bottleType := "Water Bottle"; bottleSize := 0 |} ] |}.
Proof. reflexivity. Qed.

Example scenario_D :
  exec (handleConfirmDeposit readyCamera (Fulfilled result_not_deposited)) world_water_bottle
  = {| session := {| validationStep := confirm;
                     isDetecting := false;
                     detectedBottle := Some {| type := "Water Bottle" |};
                     error := Some msg_not_confirmed;
                     hasCameraPermission := Some true |};
       ledger := [] |}.
Proof. reflexivity. Qed.

Example scenario_E :
  exec (handleIdentifyBottle readyCamera (Rejected Flow.ServiceTimeout)) initialWorld
  = {| session := {| validationStep := identify;
                     isDetecting := false;
                     detectedBottle := None;
                     error := Some msg_analysis_failed;
                     hasCameraPermission := None |};
       ledger := [] |}.
Proof. reflexivity. Qed.

(** C3: when the identify call is made and returns [isPlasticBottle = true]
    with a non-empty list of suggestions, the handler leaves the page at the
    confirm step, from the identify step as from any other, with
    [detectedBottle] holding exactly the type of the first suggestion (and
    no error). *)
Theorem identify_success_moves_to_confirm :
  forall (w : World) (cam : Camera) (dataUri : string)
         (aiResult : SuggestBottleTypeOutput)
         (first : Flow.Suggestion) (others : list Flow.Suggestion),
    captureFrame cam = inr dataUri ->
    isPlasticBottle aiResult = true ->
    suggestions aiResult = Some (first :: others) ->
    let w' := exec (handleIdentifyBottle cam (Fulfilled aiResult)) w in
    validationStep (session w') = confirm /\
    detectedBottle (session w') = Some {| type := Flow.type first |} /\
    error (session w') = None.
Proof.
  intros w cam dataUri aiResult first others Hcam Hbottle Hsugg w'.
  subst w'. run_handler. rewrite Hcam.
  unfold firstSuggestion. rewrite Hbottle, Hsugg.
  cbn. repeat split.
Qed.

Lemma identify_success_moves_to_confirm_witness :
  (captureFrame readyCamera = inr "data:image/jpeg;base64,AAAA" /\
   isPlasticBottle result_coca_cola = true /\
   suggestions result_coca_cola
     = Some ({| Flow.type := "Coca-Cola" |} :: [ {| Flow.type := "Pepsi" |} ])) /\
  let w' := exec (handleIdentifyBottle readyCamera (Fulfilled result_coca_cola)) initialWorld in
  validationStep (session w') = confirm /\
  detectedBottle (session w') = Some {| type := "Coca-Cola" |} /\
  error (session w') = None.
Proof.
  split; [repeat split | ].
  apply (identify_success_moves_to_confirm initialWorld readyCamera
           "data:image/jpeg;base64,AAAA" result_coca_cola
           {| Flow.type := "Coca-Cola" |} [ {| Flow.type := "Pepsi" |} ]);
    reflexivity.
Defined.

(** C4: when the identify call returns [isPlasticBottle = false], or no
    suggestion (the list missing or empty), the step is left as it was, so
    a page at identify stays at identify; [detectedBottle] is [null] and
    the error is the not-a-plastic-bottle message. *)
Theorem identify_rejection_stays :
  forall (w : World) (cam : Camera) (dataUri : string)
         (aiResult : SuggestBottleTypeOutput),
    captureFrame cam = inr dataUri ->
    isPlasticBottle aiResult = false \/ firstSuggestion aiResult = None ->
    let w' := exec (handleIdentifyBottle cam (Fulfilled aiResult)) w in
    validationStep (session w') = validationStep (session w) /\
    detectedBottle (session w') = None /\
    error (session w') = Some msg_not_a_bottle.
Proof.
  intros w cam dataUri aiResult Hcam Hno w'.
  subst w'. run_handler. rewrite Hcam.
  destruct Hno as [Hno | Hno]; rewrite Hno.
  - cbn. repeat split.
  - destruct (isPlasticBottle aiResult); cbn; repeat split.
Qed.

Lemma identify_rejection_stays_witness :
  (captureFrame readyCamera = inr "data:image/jpeg;base64,AAAA" /\
   (isPlasticBottle result_not_a_bottle = false \/
    firstSuggestion result_not_a_bottle = None)) /\
  let w' := exec (handleIdentifyBottle readyCamera (Fulfilled result_not_a_bottle))
                 initialWorld in
  validationStep (session w') = validationStep (session initialWorld) /\
  detectedBottle (session w') = None /\
  error (session w') = Some msg_not_a_bottle.
Proof.
  split; [split; [reflexivity | left; reflexivity] | ].
  apply (identify_rejection_stays initialWorld readyCamera
           "data:image/jpeg;base64,AAAA" result_not_a_bottle);
    [reflexivity | left; reflexivity].
Defined.

(** A bottle flag without any suggestion is rejected too. *)
Example bottle_without_suggestion_rejected :
  session (exec (handleIdentifyBottle readyCamera
                   (Fulfilled {| Flow.suggestions := Some [];
                                 Flow.isPlasticBottle := true;
                                 Flow.isDeposited := false |}))
                initialWorld)
  = {| validationStep := identify;
       isDetecting := false;
       detectedBottle := None;
       error := Some msg_not_a_bottle;
       hasCameraPermission := None |}.
Proof. reflexivity. Qed.

(** C7: when the identify call rejects (the gateway threw or timed out),
    the step is left as it was, so a page at identify stays at identify;
    the error is the generic analysis-failure message and nothing is added
    to the ledger. *)
Theorem identify_gateway_failure_stays :
  forall (w : World) (cam : Camera) (err : Flow.ServiceError),
    let w' := exec (handleIdentifyBottle cam (Rejected err)) w in
    validationStep (session w') = validationStep (session w) /\
    error (session w') = Some msg_analysis_failed /\
    ledger w' = ledger w.
Proof.
  intros w cam err w'. subst w'. run_handler.
  destruct (captureFrame cam); cbn; repeat split.
Qed.

(** C2: when the confirm handler runs with a bottle detected, at the
    confirm step as at any other, and the call returns
    [isDeposited = true], exactly one [addBottle] call is made, its
    type is the [detectedBottle] the page held before the click, whatever
    the confirm result carries, and the page is left at done with no
    error. *)
Theorem confirm_success_records_detected_bottle :
  forall (w : World) (cam : Camera) (dataUri : string)
         (bottle : DetectedBottle) (aiResult : SuggestBottleTypeOutput),
    detectedBottle (session w) = Some bottle ->
    captureFrame cam = inr dataUri ->
    isDeposited aiResult = true ->
    let w' := exec (handleConfirmDeposit cam (Fulfilled aiResult)) w in
    ledger w' = ledger w ++ [ {| bottleType := type bottle; bottleSize := 0 |} ] /\
    validationStep (session w') = done /\
    error (session w') = None.
Proof.
  intros w cam dataUri bottle aiResult Hbottle Hcam Hdep w'.
  subst w'. run_handler. rewrite Hbottle.
  run_handler. rewrite Hcam, Hdep. cbn. repeat split.
Qed.

Lemma confirm_success_records_detected_bottle_witness :
  (detectedBottle (session world_water_bottle) = Some {| type := "Water Bottle" |} /\
   captureFrame readyCamera = inr "data:image/jpeg;base64,AAAA" /\
   isDeposited result_deposited = true) /\
  let w' := exec (handleConfirmDeposit readyCamera (Fulfilled result_deposited))
                 world_water_bottle in
  ledger w' = ledger world_water_bottle
              ++ [ {| bottleType := "Water Bottle"; bottleSize := 0 |} ] /\
  validationStep (session w') = done /\
  error (session w') = None.
Proof.
  split; [repeat split | ].
  apply (confirm_success_records_detected_bottle world_water_bottle readyCamera
           "data:image/jpeg;base64,AAAA" {| type := "Water Bottle" |}
           result_deposited); reflexivity.
Defined.

(** The label recorded is the one the identify step captured: identify
    finds "Coca-Cola", the confirm result suggests "Pepsi", and "Coca-Cola"
    is what reaches the ledger. *)
Example identify_then_confirm_records_identified_label :
  ledger (exec (handleIdentifyBottle readyCamera (Fulfilled result_coca_cola) ;;
                handleConfirmDeposit readyCamera (Fulfilled result_deposited))
               initialWorld)
  = [ {| bottleType := "Coca-Cola"; bottleSize := 0 |} ].
Proof. reflexivity. Qed.

(** C5, as the claim states it, fails on the page: the bottle is kept, but
    the confirm step cannot be retried with it.  The page reached by
    scanning a Coca-Cola bottle and having its deposit not confirmed is at
    the confirm step with the bottle still detected; no click on "Confirm
    Deposit" is accepted there, and every click that is accepted leaves the
    page without a detected bottle. *)
Lemma unconfirmed_deposit_cannot_be_retried :
  run initialApp trace_not_confirmed = Some app_not_confirmed /\
  validationStep (session (world app_not_confirmed)) = confirm /\
  detectedBottle (session (world app_not_confirmed)) = Some {| type := "Coca-Cola" |} /\
  ~ (exists (cam : Camera) (a' : App),
        step app_not_confirmed (Click ConfirmDeposit cam) = Some a') /\
  (forall (c : Control) (cam : Camera) (a' : App),
      step app_not_confirmed (Click c cam) = Some a' ->
      validationStep (session (world a')) = identify /\
      detectedBottle (session (world a')) = None).
Proof.
  split; [reflexivity | split; [reflexivity | split; [reflexivity | split]]].
  - intros (cam & a' & Hstep). cbn in Hstep. discriminate Hstep.
  - intros c cam a' Hstep. destruct c; cbn in Hstep; try discriminate Hstep.
    injection Hstep as <-. split; reflexivity.
Qed.

(** C5, amended: when the confirm handler runs at the confirm step with a
    bottle detected and the call returns [isDeposited = false], the step
    and [detectedBottle] are left as they were, the error is the
    deposit-not-confirmed message and nothing is added to the ledger; the
    confirm step cannot be retried from there: with the error set the
    scanner renders "Try Again" and nothing else, and the only click the
    page accepts leaves it at identify with no bottle and no error, so the
    bottle has to be identified again. *)
Theorem unconfirmed_deposit_keeps_bottle_and_forces_restart :
  forall (w : World) (cam : Camera) (dataUri : string)
         (bottle : DetectedBottle) (aiResult : SuggestBottleTypeOutput),
    validationStep (session w) = confirm ->
    detectedBottle (session w) = Some bottle ->
    captureFrame cam = inr dataUri ->
    isDeposited aiResult = false ->
    let w' := exec (handleConfirmDeposit cam (Fulfilled aiResult)) w in
    validationStep (session w') = confirm /\
    detectedBottle (session w') = Some bottle /\
    error (session w') = Some msg_not_confirmed /\
    ledger w' = ledger w /\
    renderScannerContent (session w')
    = [ {| control := TryAgain; disabled := false |} ] /\
    (forall (out : list Pending) (c : Control) (cam' : Camera) (a' : App),
        step {| world := w'; outstanding := out |} (Click c cam') = Some a' ->
        c = TryAgain /\
        validationStep (session (world a')) = identify /\
        detectedBottle (session (world a')) = None /\
        error (session (world a')) = None /\
        ledger (world a') = ledger w).
Proof.
  intros w cam dataUri bottle aiResult Hstep Hbottle Hcam Hdep w'.
  assert (Hw' : w' = {| session := {| validationStep := validationStep (session w);
                                      isDetecting := false;
                                      detectedBottle := detectedBottle (session w);
                                      error := Some msg_not_confirmed;
                                      hasCameraPermission :=
                                        hasCameraPermission (session w) |};
                        ledger := ledger w |}).
  { subst w'. run_handler. rewrite Hbottle. run_handler.
    rewrite Hcam, Hdep. reflexivity. }
  rewrite Hw'. cbn [session ledger validationStep detectedBottle error].
  split; [exact Hstep | split; [exact Hbottle | split; [reflexivity | ]]].
  split; [reflexivity | split; [reflexivity | ]].
  intros out c cam' a' Hclick. cbn [step world session] in Hclick.
  unfold clickable in Hclick. cbn in Hclick.
  destruct c; cbn in Hclick; try discriminate Hclick.
  injection Hclick as <-. repeat split.
Qed.

Lemma unconfirmed_deposit_keeps_bottle_and_forces_restart_witness :
  (validationStep (session world_water_bottle) = confirm /\
   detectedBottle (session world_water_bottle) = Some {| type := "Water Bottle" |} /\
   captureFrame readyCamera = inr "data:image/jpeg;base64,AAAA" /\
   isDeposited result_not_deposited = false) /\
  let w' := exec (handleConfirmDeposit readyCamera (Fulfilled result_not_deposited))
                 world_water_bottle in
  validationStep (session w') = confirm /\
  detectedBottle (session w') = Some {| type := "Water Bottle" |} /\
  error (session w') = Some msg_not_confirmed /\
  ledger w' = ledger world_water_bottle /\
  renderScannerContent (session w')
  = [ {| control := TryAgain; disabled := false |} ] /\
  (forall (out : list Pending) (c : Control) (cam' : Camera) (a' : App),
      step {| world := w'; outstanding := out |} (Click c cam') = Some a' ->
      c = TryAgain /\
      validationStep (session (world a')) = identify /\
      detectedBottle (session (world a')) = None /\
      error (session (world a')) = None /\
      ledger (world a') = ledger world_water_bottle).
Proof.
  split; [repeat split | ].
  apply (unconfirmed_deposit_keeps_bottle_and_forces_restart
           world_water_bottle readyCamera "data:image/jpeg;base64,AAAA"
           {| type := "Water Bottle" |} result_not_deposited); reflexivity.
Defined.

(** After a rejected confirmation the bottle is kept, but the error takes
    the place of the step's buttons: the page offers "Try Again" only. *)
Example after_rejected_confirmation_only_try_again :
  renderScannerContent
    (session (exec (handleConfirmDeposit readyCamera (Fulfilled result_not_deposited))
                   world_water_bottle))
  = [ {| control := TryAgain; disabled := false |} ].
Proof. reflexivity. Qed.

(** C6: from any state, [handleResetScanner] leaves the step at identify
    with [detectedBottle] and the error [null]; it touches nothing else, and
    running it twice is the same as running it once. *)
Theorem reset_yields_fresh_session :
  forall (w : World),
    let w' := exec handleResetScanner w in
    validationStep (session w') = identify /\
    detectedBottle (session w') = None /\
    error (session w') = None /\
    isDetecting (session w') = isDetecting (session w) /\
    hasCameraPermission (session w') = hasCameraPermission (session w) /\
    ledger w' = ledger w /\
    exec handleResetScanner w' = w'.
Proof.
  intros w w'. subst w'. run_handler. repeat split.
Qed.

Example reset_from_done :
  exec handleResetScanner world_done
  = {| session := {| validationStep := identify;
                     isDetecting := false;
                     detectedBottle := None;
                     error := None;
                     hasCameraPermission := Some true |};
       ledger := [ {| bottleType := "Water Bottle"; bottleSize := 0 |} ] |}.
Proof. reflexivity. Qed.

(** *** What the page can reach *)

Lemma run_Reachable (trace : list Event) :
  forall a a', Reachable a -> run a trace = Some a' -> Reachable a'.
Proof.
  induction trace as [ | e rest IH]; intros a a' Ha Hrun; cbn in Hrun.
  - injection Hrun as <-. exact Ha.
  - destruct (step a e) as [a1 | ] eqn:Hstep; [ | discriminate Hrun].
    apply (IH a1 a'); [ | exact Hrun].
    exact (Reachable_step a a1 e Ha Hstep).
Qed.

(** A button can be clicked only when no analysis is running, and the scan
    and confirm buttons only at their own step. *)
Lemma clickable_inv (s : Session) (c : Control) :
  clickable s c = true ->
  isDetecting s = false /\
  match c with
  | ScanBottle => validationStep s = identify
  | ConfirmDeposit => validationStep s = confirm
  | TryAgain | Cancel | ScanAnotherBottle => True
  end.
Proof.
  unfold clickable, renderScannerContent.
  destruct (isDetecting s); [discriminate | ].
  destruct (truthy (error s)), (validationStep s), c; cbn;
    try discriminate; intros _; split; trivial.
  all: destruct (not_granted (hasCameraPermission s)); trivial.
Qed.

Lemma Invariant_initial : Invariant initialApp.
Proof.
  split; [reflexivity | discriminate].
Qed.

Lemma step_preserves_Invariant (a a' : App) (e : Event) :
  Invariant a -> step a e = Some a' -> Invariant a'.
Proof.
  destruct a as [[s led] out].
  unfold Invariant; cbn [world outstanding session].
  intros [Hlen Hconf] Hstep.
  destruct e as [granted | c cam | i r]; cbn [step world outstanding session] in Hstep.
  - injection Hstep as <-. run_handler. cbn. split; assumption.
  - destruct (clickable s c) eqn:Hclick; [ | discriminate Hstep].
    apply clickable_inv in Hclick. destruct Hclick as [Hidle Hc].
    rewrite Hidle in Hlen. apply length_zero_iff_nil in Hlen. subst out.
    destruct c; run_handler.
    + injection Hstep as <-. cbn. rewrite Hidle. split; [reflexivity | discriminate].
    + destruct (captureFrame cam); injection Hstep as <-; cbn;
        (split; [reflexivity | rewrite Hc; discriminate]).
    + destruct (detectedBottle s) as [bottle | ] eqn:Hbottle.
      * run_handler.
        destruct (captureFrame cam); injection Hstep as <-; cbn;
          (split; [reflexivity | intros _; discriminate]).
      * exfalso. exact (Hconf Hc eq_refl).
    + injection Hstep as <-. cbn. rewrite Hidle. split; [reflexivity | discriminate].
    + injection Hstep as <-. cbn. rewrite Hidle. split; [reflexivity | discriminate].
  - destruct (nth_error out i) as [k | ] eqn:Hnth; [ | discriminate Hstep].
    injection Hstep as <-. cbn [world outstanding session].
    assert (Hout : out = [k] /\ i = 0%nat).
    { clear Hconf. revert Hlen.
      destruct (isDetecting s); destruct out as [ | k0 [ | k1 out']];
        intros Hlen; try discriminate Hlen.
      - destruct i as [ | i]; cbn in Hnth.
        + injection Hnth as ->. split; reflexivity.
        + destruct i; discriminate Hnth.
      - destruct i; discriminate Hnth. }
    destruct Hout as [-> ->]. unfold remove_nth. cbn [firstn skipn app length].
    destruct k as [input | input bottle]; run_handler.
    + destruct r as [aiResult | err].
      * destruct (isPlasticBottle aiResult), (firstSuggestion aiResult); cbn;
          (split; [reflexivity | try discriminate; exact Hconf]).
      * cbn. split; [reflexivity | exact Hconf].
    + destruct r as [aiResult | err].
      * destruct (isDeposited aiResult); cbn;
          (split; [reflexivity | try discriminate; exact Hconf]).
      * cbn. split; [reflexivity | exact Hconf].
Qed.

Lemma Reachable_Invariant (a : App) : Reachable a -> Invariant a.
Proof.
  induction 1 as [ | a a' e _ IH Hstep].
  - exact Invariant_initial.
  - exact (step_preserves_Invariant a a' e IH Hstep).
Qed.

Example run_trace_scanning : run initialApp trace_scanning = Some app_scanning.
Proof. reflexivity. Qed.

Example run_trace_identified : run initialApp trace_identified = Some app_identified.
Proof. reflexivity. Qed.

Lemma Reachable_app_scanning : Reachable app_scanning.
Proof.
  exact (run_Reachable trace_scanning initialApp app_scanning
           Reachable_init run_trace_scanning).
Qed.

Lemma Reachable_app_identified : Reachable app_identified.
Proof.
  exact (run_Reachable trace_identified initialApp app_identified
           Reachable_init run_trace_identified).
Qed.

(** C10: in every state the page can reach, the confirm step has a
    [detectedBottle]; and when [handleConfirmDeposit] runs with
    [detectedBottle] unset it returns at once: no call is awaited, nothing
    is added to the ledger and no state cell changes, so a click on
    "Confirm Deposit" in such a state leaves the page as it is. *)
Theorem confirm_step_has_bottle_and_needs_it :
  forall (a : App),
    Reachable a ->
    (validationStep (session (world a)) = confirm ->
     exists bottle, detectedBottle (session (world a)) = Some bottle) /\
    (forall (w : World) (cam : Camera) (r : Settled),
        detectedBottle (session w) = None ->
        handleConfirmDeposit_start cam w = (None, w) /\
        exec (handleConfirmDeposit cam r) w = w) /\
    (forall (b : App) (cam : Camera) (b' : App),
        detectedBottle (session (world b)) = None ->
        step b (Click ConfirmDeposit cam) = Some b' ->
        b' = b).
Proof.
  intros a Ha. split; [ | split].
  - intros Hstep.
    destruct (Reachable_Invariant a Ha) as [_ Hconf].
    specialize (Hconf Hstep).
    destruct (detectedBottle (session (world a))) as [bottle | ].
    + now exists bottle.
    + now contradiction Hconf.
  - intros w cam r Hnone.
    unfold exec, handleConfirmDeposit, bind, handleConfirmDeposit_start.
    rewrite Hnone. split; reflexivity.
  - intros [w out] cam b' Hnone Hstep.
    cbn [step world outstanding] in Hstep. cbn [world] in Hnone.
    destruct (clickable (session w) ConfirmDeposit); [ | discriminate Hstep].
    unfold onClick, handleConfirmDeposit_start in Hstep.
    rewrite Hnone in Hstep. injection Hstep as <-.
    cbn [opt_to_list]. now rewrite app_nil_r.
Qed.

Lemma confirm_step_has_bottle_and_needs_it_witness :
  Reachable app_identified /\
  ((validationStep (session (world app_identified)) = confirm ->
    exists bottle, detectedBottle (session (world app_identified)) = Some bottle) /\
   (forall (w : World) (cam : Camera) (r : Settled),
       detectedBottle (session w) = None ->
       handleConfirmDeposit_start cam w = (None, w) /\
       exec (handleConfirmDeposit cam r) w = w) /\
   (forall (b : App) (cam : Camera) (b' : App),
       detectedBottle (session (world b)) = None ->
       step b (Click ConfirmDeposit cam) = Some b' ->
       b' = b)).
Proof.
  split; [exact Reachable_app_identified | ].
  exact (confirm_step_has_bottle_and_needs_it app_identified Reachable_app_identified).
Defined.

(** The invariant is about the page, not about the handlers: called at the
    confirm step, which the page never does, [handleIdentifyBottle] clears
    the bottle and can leave the step at confirm. *)
Example identify_handler_at_confirm_step :
  session (exec (handleIdentifyBottle readyCamera (Fulfilled result_not_a_bottle))
                world_water_bottle)
  = {| validationStep := confirm;
       isDetecting := false;
       detectedBottle := None;
       error := Some msg_not_a_bottle;
       hasCameraPermission := Some true |}.
Proof. reflexivity. Qed.

(** The handlers themselves carry no generation guard.  Called in an order
    the page never produces, [handleResetScanner] between the start of
    [handleIdentifyBottle] and its resumption, a fulfilled call moves the
    reset session to confirm with a detected bottle, and a rejected call
    sets its error: what protects the reset session is the page, below. *)
Lemma stale_result_overwrites_reset_session :
  session (exec (reset_then_stale (Fulfilled result_coca_cola)) initialWorld)
  = {| validationStep := confirm;
       isDetecting := false;
       detectedBottle := Some {| type := "Coca-Cola" |};
       error := None;
       hasCameraPermission := None |} /\
  session (exec (reset_then_stale (Rejected Flow.ServiceTimeout)) initialWorld)
  = {| validationStep := identify;
       isDetecting := false;
       detectedBottle := None;
       error := Some msg_analysis_failed;
       hasCameraPermission := None |} /\
  ~ (forall (r : Settled),
        let s := session (exec (reset_then_stale r) initialWorld) in
        validationStep s = identify /\ detectedBottle s = None /\ error s = None).
Proof.
  split; [reflexivity | split; [reflexivity | ]].
  intros H. specialize (H (Fulfilled result_coca_cola)).
  destruct H as [H _]. discriminate H.
Qed.

(** The page keeps a reset from happening while a call is
    outstanding.  In every state the page can reach with a call of
    [suggestBottleType] not yet settled, that call is the only one,
    [isDetecting] is set, the scanner renders no button at all, and so no
    click, on a reset button or on any other, is accepted until the call
    has settled. *)
Theorem no_reset_while_call_outstanding :
  forall (a : App),
    Reachable a ->
    outstanding a <> [] ->
    isDetecting (session (world a)) = true /\
    (exists k, outstanding a = [k]) /\
    renderScannerContent (session (world a)) = [] /\
    (forall (c : Control) (cam : Camera), step a (Click c cam) = None).
Proof.
  intros a Ha Hout.
  destruct (Reachable_Invariant a Ha) as [Hlen _].
  destruct (isDetecting (session (world a))) eqn:Hdet.
  - split; [reflexivity | split; [ | split]].
    + destruct (outstanding a) as [ | k [ | k' rest]]; try discriminate Hlen.
      now exists k.
    + unfold renderScannerContent. now rewrite Hdet.
    + intros c cam. cbn [step].
      unfold clickable, renderScannerContent. now rewrite Hdet.
  - apply length_zero_iff_nil in Hlen. contradiction.
Qed.

Lemma no_reset_while_call_outstanding_witness :
  (Reachable app_scanning /\ outstanding app_scanning <> []) /\
  (isDetecting (session (world app_scanning)) = true /\
   (exists k, outstanding app_scanning = [k]) /\
   renderScannerContent (session (world app_scanning)) = [] /\
   (forall (c : Control) (cam : Camera), step app_scanning (Click c cam) = None)).
Proof.
  split; [split; [exact Reachable_app_scanning | discriminate] | ].
  apply (no_reset_while_call_outstanding app_scanning Reachable_app_scanning).
  discriminate.
Defined.




(** *** The handlers, whatever the call returns *)

(** X5: when the confirm call rejects (the gateway threw or timed out) the
    step and the detected bottle are left as they were, the error is the
    generic confirmation-failure message, [isDetecting] is off and nothing
    is added to the ledger. *)
Theorem confirm_gateway_failure_keeps_bottle :
  forall (w : World) (cam : Camera) (bottle : DetectedBottle) (err : Flow.ServiceError),
    detectedBottle (session w) = Some bottle ->
    let w' := exec (handleConfirmDeposit cam (Rejected err)) w in
    validationStep (session w') = validationStep (session w) /\
    detectedBottle (session w') = Some bottle /\
    error (session w') = Some msg_confirmation_failed /\
    isDetecting (session w') = false /\
    ledger w' = ledger w.
Proof.
  intros w cam bottle err Hbottle w'. subst w'.
  run_handler. rewrite Hbottle. run_handler.
  destruct (captureFrame cam); cbn; repeat split; assumption.
Qed.

Lemma confirm_gateway_failure_keeps_bottle_witness :
  detectedBottle (session world_water_bottle) = Some {| type := "Water Bottle" |} /\
  let w' := exec (handleConfirmDeposit readyCamera (Rejected Flow.ServiceUnreachable))
                 world_water_bottle in
  validationStep (session w') = validationStep (session world_water_bottle) /\
  detectedBottle (session w') = Some {| type := "Water Bottle" |} /\
  error (session w') = Some msg_confirmation_failed /\
  isDetecting (session w') = false /\
  ledger w' = ledger world_water_bottle.
Proof.
  split; [reflexivity | ].
  apply (confirm_gateway_failure_keeps_bottle world_water_bottle readyCamera
           {| type := "Water Bottle" |} Flow.ServiceUnreachable).
  reflexivity.
Defined.

(** X6: when the video, the canvas or its 2d context is missing,
    [captureFrame] throws, and the click on "Scan Bottle" ends at once: no
    call is awaited, the error is the analysis-failure message,
    [isDetecting] is off again, the detected bottle is cleared and the step
    and the ledger are untouched. *)
Theorem identify_camera_not_ready :
  forall (w : World) (cam : Camera),
    videoRef_current cam = false \/ canvasRef_current cam = false \/
      context2d cam = false ->
    let (p, w') := handleIdentifyBottle_start cam w in
    p = None /\
    error (session w') = Some msg_analysis_failed /\
    isDetecting (session w') = false /\
    detectedBottle (session w') = None /\
    validationStep (session w') = validationStep (session w) /\
    ledger w' = ledger w.
Proof.
  intros w cam Hcam.
  assert (Hthrow : exists e, captureFrame cam = inl e).
  { unfold captureFrame.
    destruct (videoRef_current cam), (canvasRef_current cam), (context2d cam);
      cbn; eauto.
    destruct Hcam as [H | [H | H]]; discriminate H. }
  destruct Hthrow as [e He].
  run_handler. rewrite He. cbn. repeat split.
Qed.

Lemma identify_camera_not_ready_witness :
  (videoRef_current brokenCamera = false \/ canvasRef_current brokenCamera = false \/
     context2d brokenCamera = false) /\
  let (p, w') := handleIdentifyBottle_start brokenCamera world_water_bottle in
  p = None /\
  error (session w') = Some msg_analysis_failed /\
  isDetecting (session w') = false /\
  detectedBottle (session w') = None /\
  validationStep (session w') = validationStep (session world_water_bottle) /\
  ledger w' = ledger world_water_bottle.
Proof.
  split; [right; right; reflexivity | ].
  apply (identify_camera_not_ready world_water_bottle brokenCamera).
  right; right; reflexivity.
Defined.

(** X7: the same on "Confirm Deposit" with a bottle detected: no call is
    awaited, the error is the confirmation-failure message, [isDetecting]
    is off again, and the step, the detected bottle and the ledger are
    untouched. *)
Theorem confirm_camera_not_ready :
  forall (w : World) (cam : Camera) (bottle : DetectedBottle),
    detectedBottle (session w) = Some bottle ->
    videoRef_current cam = false \/ canvasRef_current cam = false \/
      context2d cam = false ->
    let (p, w') := handleConfirmDeposit_start cam w in
    p = None /\
    error (session w') = Some msg_confirmation_failed /\
    isDetecting (session w') = false /\
    detectedBottle (session w') = Some bottle /\
    validationStep (session w') = validationStep (session w) /\
    ledger w' = ledger w.
Proof.
  intros w cam bottle Hbottle Hcam.
  assert (Hthrow : exists e, captureFrame cam = inl e).
  { unfold captureFrame.
    destruct (videoRef_current cam), (canvasRef_current cam), (context2d cam);
      cbn; eauto.
    destruct Hcam as [H | [H | H]]; discriminate H. }
  destruct Hthrow as [e He].
  run_handler. rewrite Hbottle. run_handler. rewrite He. cbn.
  repeat split; assumption.
Qed.

Lemma confirm_camera_not_ready_witness :
  (detectedBottle (session world_water_bottle) = Some {| type := "Water Bottle" |} /\
   (videoRef_current brokenCamera = false \/ canvasRef_current brokenCamera = false \/
      context2d brokenCamera = false)) /\
  let (p, w') := handleConfirmDeposit_start brokenCamera world_water_bottle in
  p = None /\
  error (session w') = Some msg_confirmation_failed /\
  isDetecting (session w') = false /\
  detectedBottle (session w') = Some {| type := "Water Bottle" |} /\
  validationStep (session w') = validationStep (session world_water_bottle) /\
  ledger w' = ledger world_water_bottle.
Proof.
  split; [split; [reflexivity | right; right; reflexivity] | ].
  apply (confirm_camera_not_ready world_water_bottle brokenCamera
           {| type := "Water Bottle" |}); [reflexivity | right; right; reflexivity].
Defined.

(** X8: the [finally] blocks.  However the camera and the call behave,
    [handleIdentifyBottle] ends with [isDetecting] off; so does
    [handleConfirmDeposit] when a bottle is detected, and without one it
    leaves [isDetecting] as it found it. *)
Theorem handlers_end_with_detecting_off :
  forall (w : World) (cam : Camera) (r : Settled),
    isDetecting (session (exec (handleIdentifyBottle cam r) w)) = false /\
    isDetecting (session (exec (handleConfirmDeposit cam r) w))
    = match detectedBottle (session w) with
      | Some _ => false
      | None => isDetecting (session w)
      end.
Proof.
  intros w cam r. split.
  - run_handler. destruct (captureFrame cam); cbn; [reflexivity | ].
    destruct r as [aiResult | err]; cbn; [ | reflexivity].
    destruct (isPlasticBottle aiResult), (firstSuggestion aiResult); reflexivity.
  - run_handler. destruct (detectedBottle (session w)); [ | reflexivity].
    run_handler. destruct (captureFrame cam); cbn; [reflexivity | ].
    destruct r as [aiResult | err]; cbn; [ | reflexivity].
    destruct (isDeposited aiResult); reflexivity.
Qed.

(** X9: [handleIdentifyBottle] never credits: whatever the camera does and
    whatever the call returns, a result with [isDeposited = true] included,
    the ledger and the camera permission are as before. *)
Theorem identify_never_credits :
  forall (w : World) (cam : Camera) (r : Settled),
    let w' := exec (handleIdentifyBottle cam r) w in
    ledger w' = ledger w /\
    hasCameraPermission (session w') = hasCameraPermission (session w).
Proof.
  intros w cam r w'. subst w'. run_handler.
  destruct (captureFrame cam); cbn; [split; reflexivity | ].
  destruct r as [aiResult | err]; cbn; [ | split; reflexivity].
  destruct (isPlasticBottle aiResult), (firstSuggestion aiResult); split; reflexivity.
Qed.

(** X10: [handleConfirmDeposit] never changes the detected bottle or the
    camera permission, and adds to the ledger at most the one entry of the
    bottle it found detected, with size 0. *)
Theorem confirm_never_changes_bottle :
  forall (w : World) (cam : Camera) (r : Settled),
    let w' := exec (handleConfirmDeposit cam r) w in
    detectedBottle (session w') = detectedBottle (session w) /\
    hasCameraPermission (session w') = hasCameraPermission (session w) /\
    (ledger w' = ledger w \/
     exists bottle,
       detectedBottle (session w) = Some bottle /\
       ledger w' = ledger w ++ [ {| bottleType := type bottle; bottleSize := 0 |} ]).
Proof.
  intros w cam r w'. subst w'. run_handler.
  destruct (detectedBottle (session w)) as [bottle | ] eqn:Hbottle;
    [ | cbn; repeat split; try assumption; now left].
  run_handler.
  destruct (captureFrame cam); cbn;
    [repeat split; try assumption; now left | ].
  destruct r as [aiResult | err]; cbn;
    [ | repeat split; try assumption; now left].
  destruct (isDeposited aiResult); cbn; repeat split; try assumption;
    try (now left).
  right. now exists bottle.
Qed.

(** X11: of the confirm result only [isDeposited] is read: two results that
    agree on it, whatever bottle flag and suggestions they carry, leave the
    page and the ledger in the same state. *)
Theorem confirm_reads_only_isDeposited :
  forall (w : World) (cam : Camera) (r1 r2 : SuggestBottleTypeOutput),
    isDeposited r1 = isDeposited r2 ->
    exec (handleConfirmDeposit cam (Fulfilled r1)) w
    = exec (handleConfirmDeposit cam (Fulfilled r2)) w.
Proof.
  intros w cam r1 r2 Hsame. run_handler.
  destruct (detectedBottle (session w)); [ | reflexivity].
  run_handler. destruct (captureFrame cam); cbn; [reflexivity | ].
  now rewrite Hsame.
Qed.

Lemma confirm_reads_only_isDeposited_witness :
  isDeposited result_deposited = isDeposited Flow.output_bottle_in_bin /\
  exec (handleConfirmDeposit readyCamera (Fulfilled result_deposited)) world_water_bottle
  = exec (handleConfirmDeposit readyCamera (Fulfilled Flow.output_bottle_in_bin))
         world_water_bottle.
Proof.
  split; [reflexivity | ].
  apply (confirm_reads_only_isDeposited world_water_bottle readyCamera
           result_deposited Flow.output_bottle_in_bin).
  reflexivity.
Defined.

(** X12: of the identify result only [isPlasticBottle] and the type of the
    first suggestion are read: two results that agree on these, whatever
    further suggestions and deposit flag they carry, leave the page and the
    ledger in the same state. *)
Theorem identify_reads_only_flag_and_first_suggestion :
  forall (w : World) (cam : Camera) (r1 r2 : SuggestBottleTypeOutput),
    isPlasticBottle r1 = isPlasticBottle r2 ->
    option_map Flow.type (firstSuggestion r1) = option_map Flow.type (firstSuggestion r2) ->
    exec (handleIdentifyBottle cam (Fulfilled r1)) w
    = exec (handleIdentifyBottle cam (Fulfilled r2)) w.
Proof.
  intros w cam r1 r2 Hflag Hfirst. run_handler.
  destruct (captureFrame cam); cbn; [reflexivity | ].
  rewrite Hflag.
  destruct (firstSuggestion r1) as [s1 | ], (firstSuggestion r2) as [s2 | ];
    cbn in Hfirst; try discriminate Hfirst; [ | reflexivity].
  injection Hfirst as ->. reflexivity.
Qed.

Lemma identify_reads_only_flag_and_first_suggestion_witness :
  (isPlasticBottle result_coca_cola = isPlasticBottle Flow.output_bottle_in_bin /\
   option_map Flow.type (firstSuggestion result_coca_cola)
   = option_map Flow.type (firstSuggestion Flow.output_bottle_in_bin)) /\
  exec (handleIdentifyBottle readyCamera (Fulfilled result_coca_cola)) initialWorld
  = exec (handleIdentifyBottle readyCamera (Fulfilled Flow.output_bottle_in_bin))
         initialWorld.
Proof.
  split; [split; reflexivity | ].
  apply (identify_reads_only_flag_and_first_suggestion initialWorld readyCamera
           result_coca_cola Flow.output_bottle_in_bin); reflexivity.
Defined.

(** *** More of what the page can reach *)

Lemma known_messages_truthy (m : string) :
  In m known_messages -> truthy (Some m) = true.
Proof.
  intros [<- | [<- | [<- | [<- | []]]]]; reflexivity.
Qed.

Lemma step_preserves_Consistent (a a' : App) (e : Event) :
  Invariant a -> Consistent a -> step a e = Some a' -> Consistent a'.
Proof.
  destruct a as [[s led] out].
  unfold Invariant, Consistent; cbn [world outstanding session ledger].
  intros [Hlen Hconf] (Hout & Herr & Hdone & Hsize) Hstep.
  destruct e as [granted | c cam | i r]; cbn [step world outstanding session] in Hstep.
  - injection Hstep as <-. run_handler. cbn.
    split; [exact Hout | split; [exact Herr | split; [exact Hdone | exact Hsize]]].
  - destruct (clickable s c) eqn:Hclick; [ | discriminate Hstep].
    apply clickable_inv in Hclick. destruct Hclick as [Hidle Hc].
    rewrite Hidle in Hlen. apply length_zero_iff_nil in Hlen. subst out.
    destruct c; run_handler.
    + injection Hstep as <-. cbn. consistent_now.
    + destruct (captureFrame cam); injection Hstep as <-; cbn; consistent_now.
    + destruct (detectedBottle s) as [bottle | ] eqn:Hbottle.
      * run_handler.
        destruct (captureFrame cam); injection Hstep as <-; cbn; consistent_now.
      * exfalso. exact (Hconf Hc eq_refl).
    + injection Hstep as <-. cbn. consistent_now.
    + injection Hstep as <-. cbn. consistent_now.
  - destruct (nth_error out i) as [k | ] eqn:Hnth; [ | discriminate Hstep].
    injection Hstep as <-. cbn [world outstanding session ledger].
    assert (Hk : out = [k] /\ i = 0%nat).
    { clear Hconf Hout. revert Hlen.
      destruct (isDetecting s); destruct out as [ | k0 [ | k1 out']];
        intros Hlen; try discriminate Hlen.
      - destruct i as [ | i]; cbn in Hnth.
        + injection Hnth as ->. split; reflexivity.
        + destruct i; discriminate Hnth.
      - destruct i; discriminate Hnth. }
    destruct Hk as [-> ->]. unfold remove_nth. cbn [firstn skipn app].
    destruct (Hout k (or_introl eq_refl)) as [Hnoerr Hk].
    destruct k as [input | input bottle]; destruct Hk as (Hstep & Hbottle & Hinput);
      run_handler.
    + destruct r as [aiResult | err].
      * destruct (isPlasticBottle aiResult), (firstSuggestion aiResult); cbn;
          consistent_now.
      * cbn. consistent_now.
    + destruct r as [aiResult | err].
      * destruct (isDeposited aiResult); cbn; consistent_now.
        -- exists bottle, led. split; [assumption | reflexivity].
        -- apply Forall_app. split; [assumption | ].
           constructor; [reflexivity | constructor].
      * cbn. consistent_now.
Qed.

Lemma Reachable_Consistent (a : App) : Reachable a -> Consistent a.
Proof.
  induction 1 as [ | a a' e Ha IH Hstep].
  - unfold Consistent; cbn. consistent_now. constructor.
  - exact (step_preserves_Consistent a a' e (Reachable_Invariant a Ha) IH Hstep).
Qed.

Example run_trace_confirming : run initialApp trace_confirming = Some app_confirming.
Proof. reflexivity. Qed.

Example run_trace_done : run initialApp trace_done = Some app_done.
Proof. reflexivity. Qed.

Example run_trace_not_confirmed :
  run initialApp trace_not_confirmed = Some app_not_confirmed.
Proof. reflexivity. Qed.

Lemma Reachable_app_confirming : Reachable app_confirming.
Proof.
  exact (run_Reachable trace_confirming initialApp app_confirming
           Reachable_init run_trace_confirming).
Qed.

Lemma Reachable_app_done : Reachable app_done.
Proof.
  exact (run_Reachable trace_done initialApp app_done Reachable_init run_trace_done).
Qed.

Lemma Reachable_app_not_confirmed : Reachable app_not_confirmed.
Proof.
  exact (run_Reachable trace_not_confirmed initialApp app_not_confirmed
           Reachable_init run_trace_not_confirmed).
Qed.

(** A call that settles is the only one in flight. *)
Lemma settling_call_is_alone (a : App) (i : nat) (k : Pending) :
  Invariant a -> nth_error (outstanding a) i = Some k ->
  outstanding a = [k] /\ i = 0%nat /\ isDetecting (session (world a)) = true.
Proof.
  intros [Hlen _] Hnth. revert Hlen.
  destruct (isDetecting (session (world a)));
    destruct (outstanding a) as [ | k0 [ | k1 out']];
    intros Hlen; try discriminate Hlen.
  - destruct i as [ | i]; cbn in Hnth.
    + injection Hnth as ->. repeat split.
    + destruct i; discriminate Hnth.
  - destruct i; discriminate Hnth.
Qed.

(** X13: the ledger grows only when a deposit is confirmed.  Whatever
    happens on the page, the ledger stays as it is, except when the one
    call in flight is a confirm call and fulfils with [isDeposited = true]:
    then the page is at the confirm step, and exactly one entry is added,
    the bottle the page shows as detected, with size 0, and the page moves
    to done.  No click, no reset, no identify result and no failure adds an
    entry. *)
Theorem ledger_grows_only_on_confirmed_deposit :
  forall (a a' : App) (e : Event),
    Reachable a ->
    step a e = Some a' ->
    ledger (world a') = ledger (world a) \/
    exists input bottle aiResult,
      e = Settle 0 (Fulfilled aiResult) /\
      outstanding a = [ AwaitConfirm input bottle ] /\
      isDeposited aiResult = true /\
      validationStep (session (world a)) = confirm /\
      detectedBottle (session (world a)) = Some bottle /\
      ledger (world a')
      = ledger (world a) ++ [ {| bottleType := type bottle; bottleSize := 0 |} ] /\
      validationStep (session (world a')) = done.
Proof.
  intros a a' e Ha Hstep.
  pose proof (Reachable_Invariant a Ha) as Hinv.
  destruct (Reachable_Consistent a Ha) as (Hout & _).
  destruct a as [[s led] out]. cbn [world outstanding session ledger] in *.
  destruct e as [granted | c cam | i r]; cbn [step world outstanding session] in Hstep.
  - injection Hstep as <-. now left.
  - destruct (clickable s c); [ | discriminate Hstep]. left.
    destruct c; run_handler.
    + now injection Hstep as <-.
    + destruct (captureFrame cam); now injection Hstep as <-.
    + destruct (detectedBottle s); run_handler.
      * destruct (captureFrame cam); now injection Hstep as <-.
      * now injection Hstep as <-.
    + now injection Hstep as <-.
    + now injection Hstep as <-.
  - destruct (nth_error out i) as [k | ] eqn:Hnth; [ | discriminate Hstep].
    injection Hstep as <-. cbn [world outstanding session ledger].
    destruct (settling_call_is_alone _ i k Hinv Hnth) as (Hk & -> & _).
    cbn [outstanding] in Hk. subst out.
    destruct (Hout k (or_introl eq_refl)) as [_ Hmatch].
    destruct k as [input | input bottle]; run_handler.
    + left. destruct r as [aiResult | err]; [ | reflexivity].
      destruct (isPlasticBottle aiResult), (firstSuggestion aiResult); reflexivity.
    + destruct Hmatch as (Hconfirm & Hbottle & _).
      destruct r as [aiResult | err]; [ | now left].
      destruct (isDeposited aiResult) eqn:Hdep; [ | now left].
      right. exists input, bottle, aiResult. cbn. repeat split; assumption.
Qed.

Lemma ledger_grows_only_on_confirmed_deposit_witness :
  (Reachable app_confirming /\
   step app_confirming (Settle 0 (Fulfilled result_deposited)) = Some app_done) /\
  (ledger (world app_done) = ledger (world app_confirming) \/
   exists input bottle aiResult,
     Settle 0 (Fulfilled result_deposited) = Settle 0 (Fulfilled aiResult) /\
     outstanding app_confirming = [ AwaitConfirm input bottle ] /\
     isDeposited aiResult = true /\
     validationStep (session (world app_confirming)) = confirm /\
     detectedBottle (session (world app_confirming)) = Some bottle /\
     ledger (world app_done)
     = ledger (world app_confirming)
       ++ [ {| bottleType := type bottle; bottleSize := 0 |} ] /\
     validationStep (session (world app_done)) = done).
Proof.
  split; [split; [exact Reachable_app_confirming | reflexivity] | ].
  apply (ledger_grows_only_on_confirmed_deposit app_confirming app_done
           (Settle 0 (Fulfilled result_deposited)) Reachable_app_confirming).
  reflexivity.
Defined.

(** X14: a call in flight belongs to what the page shows.  In every state
    the page can reach, a pending identify call was sent for the identify
    step while the page is at identify with no bottle detected; a pending
    confirm call was sent for the confirm step while the page is at confirm,
    and the bottle its handler closed over is the bottle the page holds;
    in both cases [isDetecting] is on and no error is displayed. *)
Theorem call_in_flight_matches_page :
  forall (a : App) (k : Pending),
    Reachable a ->
    In k (outstanding a) ->
    isDetecting (session (world a)) = true /\
    error (session (world a)) = None /\
    match k with
    | AwaitIdentify input =>
        validationStep (session (world a)) = identify /\
        detectedBottle (session (world a)) = None /\
        Flow.validationStep input = Flow.identify
    | AwaitConfirm input bottle =>
        validationStep (session (world a)) = confirm /\
        detectedBottle (session (world a)) = Some bottle /\
        Flow.validationStep input = Flow.confirm
    end.
Proof.
  intros a k Ha Hin.
  destruct (Reachable_Invariant a Ha) as [Hlen _].
  destruct (Reachable_Consistent a Ha) as (Hout & _).
  split; [ | exact (Hout k Hin)].
  destruct (isDetecting (session (world a))); [reflexivity | ].
  apply length_zero_iff_nil in Hlen. rewrite Hlen in Hin. destruct Hin.
Qed.

Lemma call_in_flight_matches_page_witness :
  (Reachable app_confirming /\
   In (AwaitConfirm {| Flow.photoDataUri := "data:image/jpeg;base64,AAAA";
                       Flow.validationStep := Flow.confirm |}
                    {| type := "Coca-Cola" |})
      (outstanding app_confirming)) /\
  (isDetecting (session (world app_confirming)) = true /\
   error (session (world app_confirming)) = None /\
   validationStep (session (world app_confirming)) = confirm /\
   detectedBottle (session (world app_confirming)) = Some {| type := "Coca-Cola" |} /\
   Flow.validationStep {| Flow.photoDataUri := "data:image/jpeg;base64,AAAA";
                          Flow.validationStep := Flow.confirm |} = Flow.confirm).
Proof.
  split; [split; [exact Reachable_app_confirming | left; reflexivity] | ].
  apply (call_in_flight_matches_page app_confirming
           (AwaitConfirm {| Flow.photoDataUri := "data:image/jpeg;base64,AAAA";
                            Flow.validationStep := Flow.confirm |}
                         {| type := "Coca-Cola" |})
           Reachable_app_confirming).
  left; reflexivity.
Defined.

(** X15: an error always sends the user back to identify.  In every state
    the page can reach with an error set, the error is one of the four
    messages of the handlers, no analysis is running, and the scanner
    renders the "Try Again" button and nothing else; the only click the
    page accepts is that one, and it leaves the page at identify with no
    bottle and no error.  In particular a deposit that was not confirmed
    cannot be retried without identifying the bottle again. *)
Theorem error_leaves_only_try_again :
  forall (a : App) (m : string),
    Reachable a ->
    error (session (world a)) = Some m ->
    In m known_messages /\
    isDetecting (session (world a)) = false /\
    renderScannerContent (session (world a))
    = [ {| control := TryAgain; disabled := false |} ] /\
    (forall (c : Control) (cam : Camera) (a' : App),
        step a (Click c cam) = Some a' ->
        c = TryAgain /\
        validationStep (session (world a')) = identify /\
        detectedBottle (session (world a')) = None /\
        error (session (world a')) = None /\
        ledger (world a') = ledger (world a)).
Proof.
  intros a m Ha Herror.
  destruct (Reachable_Invariant a Ha) as [Hlen _].
  destruct (Reachable_Consistent a Ha) as (Hout & Herr & _).
  pose proof (Herr m Herror) as Hknown.
  assert (Hidle : isDetecting (session (world a)) = false).
  { destruct (isDetecting (session (world a))); [ | reflexivity].
    destruct (outstanding a) as [ | k out]; [discriminate Hlen | ].
    destruct (Hout k (or_introl eq_refl)) as [Hnone _]. congruence. }
  assert (Hrender : renderScannerContent (session (world a))
                    = [ {| control := TryAgain; disabled := false |} ]).
  { unfold renderScannerContent.
    now rewrite Hidle, Herror, (known_messages_truthy m Hknown). }
  split; [exact Hknown | split; [exact Hidle | split; [exact Hrender | ]]].
  intros c cam a' Hstep. cbn [step] in Hstep.
  unfold clickable in Hstep. rewrite Hrender in Hstep.
  destruct c; cbn in Hstep; try discriminate Hstep.
  injection Hstep as <-. repeat split.
Qed.

Lemma error_leaves_only_try_again_witness :
  (Reachable app_not_confirmed /\
   error (session (world app_not_confirmed)) = Some msg_not_confirmed) /\
  (In msg_not_confirmed known_messages /\
   isDetecting (session (world app_not_confirmed)) = false /\
   renderScannerContent (session (world app_not_confirmed))
   = [ {| control := TryAgain; disabled := false |} ] /\
   (forall (c : Control) (cam : Camera) (a' : App),
       step app_not_confirmed (Click c cam) = Some a' ->
       c = TryAgain /\
       validationStep (session (world a')) = identify /\
       detectedBottle (session (world a')) = None /\
       error (session (world a')) = None /\
       ledger (world a') = ledger (world app_not_confirmed))).
Proof.
  split; [split; [exact Reachable_app_not_confirmed | reflexivity] | ].
  apply (error_leaves_only_try_again app_not_confirmed msg_not_confirmed
           Reachable_app_not_confirmed).
  reflexivity.
Defined.

(** X16: "Deposit Confirmed" is shown only for a recorded bottle.  In every
    state the page can reach, every entry of the ledger has size 0, and at
    the done step a bottle is detected and the last entry of the ledger is
    that bottle. *)
Theorem done_has_recorded_detected_bottle :
  forall (a : App),
    Reachable a ->
    Forall (fun c => bottleSize c = 0%Z) (ledger (world a)) /\
    (validationStep (session (world a)) = done ->
     exists bottle l,
       detectedBottle (session (world a)) = Some bottle /\
       ledger (world a) = l ++ [ {| bottleType := type bottle; bottleSize := 0 |} ]).
Proof.
  intros a Ha.
  destruct (Reachable_Consistent a Ha) as (_ & _ & Hdone & Hsize).
  split; assumption.
Qed.

Lemma done_has_recorded_detected_bottle_witness :
  Reachable app_done /\
  (Forall (fun c => bottleSize c = 0%Z) (ledger (world app_done)) /\
   (validationStep (session (world app_done)) = done ->
    exists bottle l,
      detectedBottle (session (world app_done)) = Some bottle /\
      ledger (world app_done)
      = l ++ [ {| bottleType := type bottle; bottleSize := 0 |} ])).
Proof.
  split; [exact Reachable_app_done | ].
  exact (done_has_recorded_detected_bottle app_done Reachable_app_done).
Defined.

(** X17: when the two buttons can be clicked.  "Scan Bottle" is offered and
    enabled exactly when no analysis is running, no error is displayed, the
    page is at identify and the camera permission is granted; "Confirm
    Deposit" exactly when no analysis is running, no error is displayed and
    the page is at confirm: it does not look at the camera permission. *)
Theorem scan_needs_camera_permission_confirm_does_not :
  forall (s : Session),
    (clickable s ScanBottle = true <->
     isDetecting s = false /\ truthy (error s) = false /\
     validationStep s = identify /\ hasCameraPermission s = Some true) /\
    (clickable s ConfirmDeposit = true <->
     isDetecting s = false /\ truthy (error s) = false /\
     validationStep s = confirm).
Proof.
  intros s. unfold clickable, renderScannerContent.
  destruct (isDetecting s), (truthy (error s)), (validationStep s),
    (hasCameraPermission s) as [[ | ] | ]; cbn;
    split; intuition congruence.
Qed.

(** *** From the service's reply to the page *)

Lemma await_suggestBottleType_unfold (svc : Flow.Service) (input : Flow.SuggestBottleTypeInput) :
  await_suggestBottleType svc input =
    match svc 0%nat (Flow.request_of input) with
    | Flow.Unreachable => Rejected Flow.ServiceUnreachable
    | Flow.TimedOut => Rejected Flow.ServiceTimeout
    | Flow.Replied raw =>
        match Flow.SuggestBottleTypeOutputSchema raw with
        | Some aiResult => Fulfilled aiResult
        | None => Rejected Flow.MalformedOutput
        end
    end.
Proof.
  unfold await_suggestBottleType. rewrite FlowSpec.flow_unfold. cbn [snd length].
  destruct (svc 0%nat (Flow.request_of input)) as [ | | raw]; try reflexivity.
  destruct (Flow.SuggestBottleTypeOutputSchema raw); reflexivity.
Qed.

(** X18: a scan followed to its end.  With the frame captured, the click on
    "Scan Bottle" ends with the analysis-failure message exactly when the
    service, asked the identify prompt on that frame, is unreachable, times
    out, or replies something the output schema rejects; a reply that
    parses never gives that message. *)
Theorem scan_fails_iff_service_fails :
  forall (svc : Flow.Service) (cam : Camera) (uri : string) (w : World),
    captureFrame cam = inr uri ->
    let reply := svc 0%nat {| Flow.prompt := Flow.identifyBottlePrompt;
                              Flow.media := uri |} in
    let w' := exec (clickAndSettle svc ScanBottle cam) w in
    error (session w') = Some msg_analysis_failed <->
    (reply = Flow.Unreachable \/
     reply = Flow.TimedOut \/
     exists raw, reply = Flow.Replied raw /\
                 Flow.SuggestBottleTypeOutputSchema raw = None).
Proof.
  intros svc cam uri w Hcam reply w'. subst w'.
  unfold clickAndSettle. run_handler. rewrite Hcam. cbn.
  rewrite await_suggestBottleType_unfold. unfold Flow.request_of. cbn.
  fold reply. destruct reply as [ | | raw]; cbn.
  - split; [intros _; now left | reflexivity].
  - split; [intros _; right; now left | reflexivity].
  - destruct (Flow.SuggestBottleTypeOutputSchema raw) as [aiResult | ] eqn:Hparse; cbn.
    + split.
      * destruct (isPlasticBottle aiResult), (firstSuggestion aiResult); cbn;
          intros H; discriminate H.
      * intros [H | [H | (raw' & H & Hnone)]]; try discriminate H.
        injection H as <-. congruence.
    + split; [intros _; right; right; now exists raw | reflexivity].
Qed.

Lemma scan_fails_iff_service_fails_witness :
  captureFrame readyCamera = inr "data:image/jpeg;base64,AAAA" /\
  (error (session (exec (clickAndSettle (replying (Flow.JString "a bottle"))
                                        ScanBottle readyCamera)
                        initialWorld))
   = Some msg_analysis_failed <->
   (replying (Flow.JString "a bottle") 0%nat
      {| Flow.prompt := Flow.identifyBottlePrompt;
         Flow.media := "data:image/jpeg;base64,AAAA" |} = Flow.Unreachable \/
    replying (Flow.JString "a bottle") 0%nat
      {| Flow.prompt := Flow.identifyBottlePrompt;
         Flow.media := "data:image/jpeg;base64,AAAA" |} = Flow.TimedOut \/
    exists raw,
      replying (Flow.JString "a bottle") 0%nat
        {| Flow.prompt := Flow.identifyBottlePrompt;
           Flow.media := "data:image/jpeg;base64,AAAA" |} = Flow.Replied raw /\
      Flow.SuggestBottleTypeOutputSchema raw = None)).
Proof.
  split; [reflexivity | ].
  apply (scan_fails_iff_service_fails (replying (Flow.JString "a bottle")) readyCamera
           "data:image/jpeg;base64,AAAA" initialWorld).
  reflexivity.
Defined.

(** X19: a confirmation followed to its end.  With a bottle detected and
    the frame captured, the click on "Confirm Deposit" ends with the
    confirmation-failure message exactly when the service, asked the confirm
    prompt on that frame, is unreachable, times out, or replies something
    the output schema rejects; and then nothing is added to the ledger. *)
Theorem confirm_fails_iff_service_fails :
  forall (svc : Flow.Service) (cam : Camera) (uri : string) (w : World)
         (bottle : DetectedBottle),
    detectedBottle (session w) = Some bottle ->
    captureFrame cam = inr uri ->
    let reply := svc 0%nat {| Flow.prompt := Flow.confirmDepositPrompt;
                              Flow.media := uri |} in
    let w' := exec (clickAndSettle svc ConfirmDeposit cam) w in
    (error (session w') = Some msg_confirmation_failed <->
     (reply = Flow.Unreachable \/
      reply = Flow.TimedOut \/
      exists raw, reply = Flow.Replied raw /\
                  Flow.SuggestBottleTypeOutputSchema raw = None)) /\
    (error (session w') = Some msg_confirmation_failed -> ledger w' = ledger w).
Proof.
  intros svc cam uri w bottle Hbottle Hcam reply w'. subst w'.
  unfold clickAndSettle. run_handler. rewrite Hbottle. run_handler.
  rewrite Hcam. cbn.
  rewrite await_suggestBottleType_unfold. unfold Flow.request_of. cbn.
  fold reply. destruct reply as [ | | raw]; cbn.
  - split; [split; [intros _; now left | reflexivity] | reflexivity].
  - split; [split; [intros _; right; now left | reflexivity] | reflexivity].
  - destruct (Flow.SuggestBottleTypeOutputSchema raw) as [aiResult | ] eqn:Hparse; cbn.
    + destruct (isDeposited aiResult); cbn.
      * split; [split | ]; try (intros H; discriminate H).
        intros [H | [H | (raw' & H & Hnone)]]; try discriminate H.
        injection H as <-. congruence.
      * split; [split | ]; try (intros H; discriminate H).
        intros [H | [H | (raw' & H & Hnone)]]; try discriminate H.
        injection H as <-. congruence.
    + split; [split; [intros _; right; right; now exists raw | reflexivity]
             | reflexivity].
Qed.

Lemma confirm_fails_iff_service_fails_witness :
  (detectedBottle (session world_water_bottle) = Some {| type := "Water Bottle" |} /\
   captureFrame readyCamera = inr "data:image/jpeg;base64,AAAA") /\
  let reply := (fun _ _ => Flow.TimedOut) 0%nat
                 {| Flow.prompt := Flow.confirmDepositPrompt;
                    Flow.media := "data:image/jpeg;base64,AAAA" |} in
  let w' := exec (clickAndSettle (fun _ _ => Flow.TimedOut) ConfirmDeposit readyCamera)
                 world_water_bottle in
  (error (session w') = Some msg_confirmation_failed <->
   (reply = Flow.Unreachable \/
    reply = Flow.TimedOut \/
    exists raw, reply = Flow.Replied raw /\
                Flow.SuggestBottleTypeOutputSchema raw = None)) /\
  (error (session w') = Some msg_confirmation_failed ->
   ledger w' = ledger world_water_bottle).
Proof.
  split; [split; reflexivity | ].
  apply (confirm_fails_iff_service_fails (fun _ _ => Flow.TimedOut) readyCamera
           "data:image/jpeg;base64,AAAA" world_water_bottle
           {| type := "Water Bottle" |}); reflexivity.
Defined.

(** X20: from the reply to the detected bottle.  With the frame captured,
    if the service's reply to the identify prompt is an object whose
    [isPlasticBottle] is [true], whose [isDeposited] is a boolean, and whose
    [suggestions] is an array of well-formed suggestions, the first with
    [type] the string [t], then the click on "Scan Bottle" ends at the
    confirm step with the detected bottle [t], no error, [isDetecting] off
    and the ledger untouched, whatever [isDeposited] says and whatever the
    other suggestions are. *)
Theorem reply_decides_detected_bottle :
  forall (svc : Flow.Service) (cam : Camera) (uri : string) (w : World)
         (fields tfs : list (string * Flow.Json)) (rest : list Flow.Json)
         (others : list Flow.Suggestion) (t : string) (d : bool),
    captureFrame cam = inr uri ->
    svc 0%nat {| Flow.prompt := Flow.identifyBottlePrompt; Flow.media := uri |}
    = Flow.Replied (Flow.JObject fields) ->
    Flow.get "isPlasticBottle" fields = Some (Flow.JBool true) ->
    Flow.get "isDeposited" fields = Some (Flow.JBool d) ->
    Flow.get "suggestions" fields = Some (Flow.JArray (Flow.JObject tfs :: rest)) ->
    Flow.get "type" tfs = Some (Flow.JString t) ->
    Flow.parse_items Flow.SuggestionSchema rest = Some others ->
    let w' := exec (clickAndSettle svc ScanBottle cam) w in
    validationStep (session w') = confirm /\
    detectedBottle (session w') = Some {| type := t |} /\
    error (session w') = None /\
    isDetecting (session w') = false /\
    ledger w' = ledger w.
Proof.
  intros svc cam uri w fields tfs rest others t d
         Hcam Hreply Hflag Hdep Hsugg Htype Hrest w'.
  assert (Hparse : Flow.SuggestBottleTypeOutputSchema (Flow.JObject fields)
                   = Some {| Flow.suggestions := Some ({| Flow.type := t |} :: others);
                             Flow.isPlasticBottle := true;
                             Flow.isDeposited := d |}).
  { unfold Flow.SuggestBottleTypeOutputSchema, Flow.required, Flow.optional,
      Flow.z_array, Flow.z_boolean.
    rewrite Hsugg, Hflag, Hdep. cbn [Flow.parse_items].
    unfold Flow.SuggestionSchema at 1. unfold Flow.required, Flow.z_string.
    now rewrite Htype, Hrest. }
  subst w'. unfold clickAndSettle. run_handler. rewrite Hcam. cbn.
  rewrite await_suggestBottleType_unfold. unfold Flow.request_of. cbn.
  rewrite Hreply, Hparse. cbn. repeat split.
Qed.

Lemma reply_decides_detected_bottle_witness :
  (captureFrame readyCamera = inr "data:image/jpeg;base64,AAAA" /\
   replying Flow.reply_two_suggestions 0%nat
     {| Flow.prompt := Flow.identifyBottlePrompt;
        Flow.media := "data:image/jpeg;base64,AAAA" |}
   = Flow.Replied Flow.reply_two_suggestions) /\
  let w' := exec (clickAndSettle (replying Flow.reply_two_suggestions)
                                 ScanBottle readyCamera)
                 initialWorld in
  validationStep (session w') = confirm /\
  detectedBottle (session w') = Some {| type := "Coca-Cola" |} /\
  error (session w') = None /\
  isDetecting (session w') = false /\
  ledger w' = ledger initialWorld.
Proof.
  split; [split; reflexivity | ].
  apply (reply_decides_detected_bottle
           (replying Flow.reply_two_suggestions) readyCamera
           "data:image/jpeg;base64,AAAA" initialWorld
           [ ("confidence", Flow.JNumber 97);
             ("suggestions",
              Flow.JArray [ Flow.JObject [ ("type", Flow.JString "Coca-Cola") ];
                            Flow.JObject [ ("type", Flow.JString "Pepsi");
                                           ("size", Flow.JString "500ml") ] ]);
             ("isPlasticBottle", Flow.JBool true);
             ("isDeposited", Flow.JBool false) ]
           [ ("type", Flow.JString "Coca-Cola") ]
           [ Flow.JObject [ ("type", Flow.JString "Pepsi");
                            ("size", Flow.JString "500ml") ] ]
           [ {| Flow.type := "Pepsi" |} ] "Coca-Cola" false);
    reflexivity.
Defined.

(** *** Every credit takes two results *)

Lemma step_counts (a a' : App) (e : Event) :
  Reachable a ->
  step a e = Some a' ->
  let L := length (ledger (world a)) in
  let L' := length (ledger (world a')) in
  (L' + awaiting_deposit a' <= L + awaiting_deposit a + count shows_bottle [e])%nat /\
  (L' <= L + count shows_deposit [e])%nat /\
  (2 * L' + awaiting_deposit a' <= 2 * L + awaiting_deposit a + count fulfils [e])%nat.
Proof.
  intros Ha Hstep.
  pose proof (Reachable_Invariant a Ha) as Hinv.
  destruct (Reachable_Consistent a Ha) as (Hout & _).
  destruct a as [[s led] out]. unfold awaiting_deposit, count.
  cbn [world outstanding session ledger] in *.
  destruct e as [granted | c cam | i r]; cbn [step world outstanding session] in Hstep.
  - injection Hstep as <-. run_handler. cbn.
    destruct (validationStep s); lia.
  - destruct (clickable s c) eqn:Hclick; [ | discriminate Hstep].
    destruct c; run_handler.
    + injection Hstep as <-. cbn. destruct (validationStep s); lia.
    + destruct (captureFrame cam); injection Hstep as <-; cbn;
        destruct (validationStep s); lia.
    + destruct (detectedBottle s); run_handler.
      * destruct (captureFrame cam); injection Hstep as <-; cbn;
          destruct (validationStep s); lia.
      * injection Hstep as <-. cbn. destruct (validationStep s); lia.
    + injection Hstep as <-. cbn. destruct (validationStep s); lia.
    + injection Hstep as <-. cbn. destruct (validationStep s); lia.
  - destruct (nth_error out i) as [k | ] eqn:Hnth; [ | discriminate Hstep].
    injection Hstep as <-. cbn [world outstanding session ledger].
    destruct (settling_call_is_alone _ i k Hinv Hnth) as (Hk & -> & _).
    cbn [outstanding] in Hk. subst out.
    destruct (Hout k (or_introl eq_refl)) as [_ Hmatch].
    destruct k as [input | input bottle]; destruct Hmatch as (Hs & _ & _);
      run_handler.
    + destruct r as [aiResult | err]; cbn; [ | rewrite Hs; lia].
      destruct (isPlasticBottle aiResult), (firstSuggestion aiResult);
        cbn; rewrite Hs; lia.
    + destruct r as [aiResult | err]; cbn; [ | rewrite Hs; lia].
      destruct (isDeposited aiResult); cbn; rewrite ?length_app, Hs; cbn;
        destruct (isPlasticBottle aiResult), (firstSuggestion aiResult); cbn; lia.
Qed.

Lemma run_counts (trace : list Event) :
  forall (a a' : App),
    Reachable a ->
    run a trace = Some a' ->
    let L := length (ledger (world a)) in
    let L' := length (ledger (world a')) in
    (L' + awaiting_deposit a' <= L + awaiting_deposit a + count shows_bottle trace)%nat /\
    (L' <= L + count shows_deposit trace)%nat /\
    (2 * L' + awaiting_deposit a' <= 2 * L + awaiting_deposit a + count fulfils trace)%nat.
Proof.
  induction trace as [ | e rest IH]; intros a a' Ha Hrun; cbn in Hrun.
  - injection Hrun as <-. unfold count. cbn. lia.
  - destruct (step a e) as [a1 | ] eqn:Hstep; [ | discriminate Hrun].
    pose proof (step_counts a a1 e Ha Hstep) as H1.
    pose proof (IH a1 a' (Reachable_step a a1 e Ha Hstep) Hrun) as H2.
    cbv zeta in *. unfold count in *. cbn [filter] in *.
    destruct (shows_bottle e), (shows_deposit e), (fulfils e);
      cbn [length] in *; lia.
Qed.

(** X21: every credit takes two results.  Whatever the user clicks and
    however the calls settle, from the initial page the number of entries
    in the ledger is at most the number of calls fulfilled with a named
    bottle, at most the number of calls fulfilled with a deposit, and at
    most half the number of calls fulfilled at all: one photograph never
    yields a credit. *)
Theorem every_credit_takes_two_results :
  forall (trace : list Event) (a : App),
    run initialApp trace = Some a ->
    (length (ledger (world a)) <= count shows_bottle trace)%nat /\
    (length (ledger (world a)) <= count shows_deposit trace)%nat /\
    (2 * length (ledger (world a)) <= count fulfils trace)%nat.
Proof.
  intros trace a Hrun.
  pose proof (run_counts trace initialApp a Reachable_init Hrun) as H.
  cbv zeta in H. unfold awaiting_deposit in H at 2 4. cbn in H.
  destruct H as (H1 & H2 & H3). repeat split; lia.
Qed.

Lemma every_credit_takes_two_results_witness :
  run initialApp trace_done = Some app_done /\
  (length (ledger (world app_done)) <= count shows_bottle trace_done)%nat /\
  (length (ledger (world app_done)) <= count shows_deposit trace_done)%nat /\
  (2 * length (ledger (world app_done)) <= count fulfils trace_done)%nat.
Proof.
  split; [reflexivity | ].
  apply (every_credit_takes_two_results trace_done app_done).
  reflexivity.
Defined.

End DashboardSpec.
